(** * vim.org scraper ([tools/scrape/vimorg.py]): model and properties

    The scraper walks lxml element trees.  The development embeds

    - the part of Python the code relies on: exceptions, truth values of
      strings, [+=] on attributes that may hold [None], [int], slices;
    - the part of lxml's element API the code calls: [text], [tail],
      [attrib], indexing, [getprevious], [getparent], [remove], iteration
      over children, and the truth value of an element;
    - the three functions [_clean_text_node], [get_plugin_info] and
      [get_plugin_list].

    HTTP retrieval, HTML parsing, XPath evaluation, [strptime],
    [util.to_timestamp] and the serialisation of a node are outside the
    file [vimorg.py]; they enter as section variables.  The nodes one call
    of [get_plugin_info] reads (rating, body rows, release rows) are taken
    to be disjoint subtrees of the page, so that cleaning the description
    does not show in what is read afterwards. *)

From Stdlib Require Import String Ascii List ZArith Lia Bool Arith.
From Stdlib Require Decimal DecimalString DecimalPos DecimalZ.
Import ListNotations.

Set Warnings "-register-all".

Local Open Scope list_scope.
Local Open Scope string_scope.

(** ** Python exceptions and results *)

Inductive exn : Type :=
| TypeError
| KeyError (key : string)
| IndexError
| AttributeError
| ValueError
| AssertionError
| Exception (msg : string)
| RequestException.

Inductive result (A : Type) : Type :=
| Ok (a : A)
| Raise (e : exn).

Arguments Ok {A} a.
Arguments Raise {A} e.

Definition bind {A B : Type} (r : result A) (k : A -> result B) : result B :=
  match r with
  | Ok a => k a
  | Raise e => Raise e
  end.

Notation "x <- r ;; k" := (bind r (fun x => k))
  (at level 61, r at next level, right associativity).
Notation "r ;;; k" := (bind r (fun _ => k))
  (at level 61, right associativity).

Definition raises {A : Type} (r : result A) : Prop := exists e, r = Raise e.
Definition returns {A : Type} (r : result A) : Prop := exists a, r = Ok a.

(** ** Strings *)

(** [s1 == s2] on [str]. *)
Definition str_eqb (a b : string) : bool := String.eqb a b.

(** [needle in hay]: substring test. *)
Fixpoint contains (needle hay : string) : bool :=
  prefix needle hay ||
  match hay with
  | EmptyString => false
  | String _ rest => contains needle rest
  end.

(** Truth value of an attribute holding [None] or a [str]: only a non-empty
    string is true. *)
Definition truthy (s : option string) : bool :=
  match s with
  | Some (String _ _) => true
  | _ => false
  end.

(** [a + b] where either side may be [None]; Python raises [TypeError]
    unless both are strings.  [x.attr += b] is [x.attr = x.attr + b]. *)
Definition py_add (a b : option string) : result string :=
  match a, b with
  | Some x, Some y => Ok (x ++ y)
  | _, _ => Raise TypeError
  end.

(** [needle in s] where [s] may be [None] ([TypeError]: argument of type
    NoneType is not iterable). *)
Definition py_in (needle : string) (s : option string) : result bool :=
  match s with
  | Some x => Ok (contains needle x)
  | None => Raise TypeError
  end.

(** [None] read as the empty string when text is collected. *)
Definition opt_str (s : option string) : string :=
  match s with
  | Some x => x
  | None => ""
  end.

(** ["%s" % s]. *)
Definition py_str (s : option string) : string :=
  match s with
  | Some x => x
  | None => "None"
  end.

(** ** lxml elements

    An element has a tag, attributes, the text before its first child
    ([text]), its children in document order, and the text that follows
    its end tag up to the next sibling ([tail]).  [text] and [tail] are
    [None] when there is no text node. *)

Inductive element : Type :=
  Element {
    tag : string;
    attrib : list (string * string);
    text : option string;
    children : list element;
    tail : option string
  }.

Definition set_text (e : element) (v : option string) : element :=
  Element (tag e) (attrib e) v (children e) (tail e).

Definition set_tail (e : element) (v : option string) : element :=
  Element (tag e) (attrib e) (text e) (children e) v.

Definition set_children (e : element) (cs : list element) : element :=
  Element (tag e) (attrib e) (text e) cs (tail e).

(** [elem.attrib[key]]: [KeyError] when the attribute is missing. *)
Fixpoint assoc (key : string) (kvs : list (string * string)) : option string :=
  match kvs with
  | [] => None
  | (k, v) :: rest => if str_eqb k key then Some v else assoc key rest
  end.

Definition attrib_get (e : element) (key : string) : result string :=
  match assoc key (attrib e) with
  | Some v => Ok v
  | None => Raise (KeyError key)
  end.

(** [elem[i]] for [i >= 0]: the i-th child, [IndexError] when out of range. *)
Definition child (e : element) (i : nat) : result element :=
  match nth_error (children e) i with
  | Some c => Ok c
  | None => Raise IndexError
  end.

(** [l[i]] on the list an XPath query returns. *)
Definition item {A : Type} (l : list A) (i : nat) : result A :=
  match nth_error l i with
  | Some c => Ok c
  | None => Raise IndexError
  end.

(** [l[-1]]. *)
Definition item_last {A : Type} (l : list A) : result A :=
  match rev l with
  | x :: _ => Ok x
  | [] => Raise IndexError
  end.

(** Truth value of what [getprevious()] returns.  [None] is false, and an
    lxml element is true exactly when it has children ([_Element.__bool__]
    is [len(self) > 0]). *)
Definition elem_truthy (e : option element) : bool :=
  match e with
  | Some p => match children p with [] => false | _ :: _ => true end
  | None => false
  end.

(** All the text below an element, in document order ([text_content()]). *)
Fixpoint text_content (e : element) : string :=
  match e with
  | Element _ _ t cs _ =>
      opt_str t ++
      (fix inner (l : list element) : string :=
         match l with
         | [] => ""
         | c :: rest => text_content c ++ opt_str (tail c) ++ inner rest
         end) cs
  end.

(** Every element strictly below [e], in document order. *)
Fixpoint descendants (e : element) : list element :=
  match e with
  | Element _ _ _ cs _ =>
      (fix inner (l : list element) : list element :=
         match l with
         | [] => []
         | c :: rest => c :: (descendants c ++ inner rest)%list
         end) cs
  end.

(** ** [_clean_text_node]

    The loop [for elem in node] runs over the children of [node] while the
    body removes the current child.  lxml's child iterator takes the
    successor of an element at the moment it hands the element out, before
    the body runs, so removing the current element never makes the loop
    skip one: every child of the original node is visited once, in order.

    The walk is kept as a cursor into the sibling list: [ptext] is the
    parent's [text], [prevs] the siblings now standing before the cursor,
    nearest first, and the argument of [clean_loop] the children still to
    visit.  [elem.getprevious()] is the head of [prevs].
    [elem.getparent().remove(elem)] unlinks the element together with its
    tail text, which here is: the element is not pushed on [prevs]. *)

Record walk : Type := Walk {
  ptext : option string;
  prevs : list element
}.

Definition getprevious (w : walk) : option element := hd_error (prevs w).

(** [elem.getprevious().tail += s]. *)
Definition prev_tail_iadd (w : walk) (s : option string) : result walk :=
  match prevs w with
  | p :: before =>
      v <- py_add (tail p) s ;;
      Ok (Walk (ptext w) (set_tail p (Some v) :: before))
  | [] => Raise AttributeError
  end.

(** [elem.getparent().text += s]. *)
Definition parent_text_iadd (w : walk) (s : option string) : result walk :=
  v <- py_add (ptext w) s ;;
  Ok (Walk (Some v) (prevs w)).

(** An element that stays in the tree: the cursor moves past it. *)
Definition keep (w : walk) (elem : element) : walk :=
  Walk (ptext w) (elem :: prevs w).

(** [if c: body], with [body] changing the walk. *)
Definition when (c : bool) (w : walk) (body : walk -> result walk) : result walk :=
  if c then body w else Ok w.

Definition weird_link (href txt : string) : exn :=
  Exception ("Weird link to " ++ href ++ " with text " ++ txt).

(** [elem.text == elem.attrib["href"]]. *)
Definition text_is_href (elem : element) : result bool :=
  href <- attrib_get elem "href" ;;
  Ok (match text elem with
      | Some t => str_eqb t href
      | None => false
      end).

(** [a or b], [b] evaluated only when [a] is false. *)
Definition py_or (a : result bool) (b : result bool) : result bool :=
  x <- a ;; if x then Ok true else b.

(** One pass of the loop body on [elem]. *)
Definition clean_step (w : walk) (elem : element) : result walk :=
  if str_eqb (tag elem) "br" then
    when (truthy (tail elem)) w (fun w =>
      if elem_truthy (getprevious w)
      then prev_tail_iadd w (tail elem)
      else parent_text_iadd w (tail elem))
  else if str_eqb (tag elem) "a" then
    c <- py_or (text_is_href elem) (py_in "vimscript" (text elem)) ;;
    if c then
      if elem_truthy (getprevious w) then
        w1 <- prev_tail_iadd w (text elem) ;;
        when (truthy (tail elem)) w1 (fun w1 => prev_tail_iadd w1 (tail elem))
      else
        w1 <- parent_text_iadd w (text elem) ;;
        when (truthy (tail elem)) w1 (fun w1 => parent_text_iadd w1 (tail elem))
    else
      tip <- py_in "vimtip" (text elem) ;;
      if tip then Ok w
      else
        href <- attrib_get elem "href" ;;
        Raise (weird_link href (py_str (text elem)))
  else
    Ok (keep w elem).

Fixpoint clean_loop (w : walk) (todo : list element) : result walk :=
  match todo with
  | [] => Ok w
  | elem :: rest =>
      w1 <- clean_step w elem ;;
      clean_loop w1 rest
  end.

Definition _clean_text_node (node : element) : result element :=
  let node :=
    if (0 <? length (children node))%nat && negb (truthy (text node))
    then set_text node (Some "")
    else node in
  w <- clean_loop (Walk (text node) []) (children node) ;;
  Ok (set_children (set_text node (ptext w)) (rev (prevs w))).

(** ** Regular expressions and [int]

    The two patterns the code searches for, written as the scans
    [re.search] performs: every start position from left to right, the
    digit runs greedy. *)

Definition is_digit (c : ascii) : bool :=
  (48 <=? nat_of_ascii c)%nat && (nat_of_ascii c <=? 57)%nat.

(** The longest run of digits at the head of [s], and what follows it. *)
Fixpoint take_digits (s : string) : string * string :=
  match s with
  | String c rest =>
      if is_digit c
      then let (d, r) := take_digits rest in (String c d, r)
      else ("", s)
  | EmptyString => ("", "")
  end.

(** [s] without its prefix [p], when it has that prefix. *)
Fixpoint drop_prefix (p s : string) : option string :=
  match p, s with
  | EmptyString, _ => Some s
  | String a p', String b s' =>
      if Ascii.eqb a b then drop_prefix p' s' else None
  | String _ _, EmptyString => None
  end.

(** [\d+] at the head of [s]: the digits and the rest. *)
Definition digits1 (s : string) : option (string * string) :=
  match take_digits s with
  | (EmptyString, _) => None
  | (d, r) => Some (d, r)
  end.

(** [re.match("script_id=(\d+)", s)]: group 1. *)
Definition match_script_id (s : string) : option string :=
  match drop_prefix "script_id=" s with
  | Some r => option_map fst (digits1 r)
  | None => None
  end.

(** [re.match("(\d+)/(\d+)", s)]: groups 1 and 2. *)
Definition match_fraction (s : string) : option (string * string) :=
  match digits1 s with
  | Some (d1, r) =>
      match drop_prefix "/" r with
      | Some r' => option_map (fun x => (d1, fst x)) (digits1 r')
      | None => None
      end
  | None => None
  end.

(** [re.search]: the match at the leftmost position that has one. *)
Fixpoint re_search {A : Type} (match_at : string -> option A) (s : string)
  : option A :=
  match match_at s with
  | Some m => Some m
  | None =>
      match s with
      | String _ rest => re_search match_at rest
      | EmptyString => None
      end
  end.

(** [re.search(pattern, s)] with [s] possibly [None] ([TypeError]). *)
Definition py_re_search {A : Type} (match_at : string -> option A)
  (s : option string) : result (option A) :=
  match s with
  | Some x => Ok (re_search match_at x)
  | None => Raise TypeError
  end.

(** [m.group(..)] on what [re.search] returned: [None] has no [group]. *)
Definition group {A : Type} (m : option A) : result A :=
  match m with
  | Some g => Ok g
  | None => Raise AttributeError
  end.

(** Value of a string of decimal digits. *)
Fixpoint digits_value (acc : Z) (s : string) : Z :=
  match s with
  | String c rest => digits_value (10 * acc + Z.of_nat (nat_of_ascii c - 48)) rest
  | EmptyString => acc
  end.

Definition is_space (c : ascii) : bool :=
  let n := nat_of_ascii c in
  (n =? 32)%nat || ((9 <=? n)%nat && (n <=? 13)%nat).

Fixpoint lstrip (s : string) : string :=
  match s with
  | String c rest => if is_space c then lstrip rest else s
  | EmptyString => ""
  end.

(** [int(s)] on ASCII text: blanks around an optional sign and at least
    one digit; [TypeError] on [None], [ValueError] on anything else. *)
Definition py_int (s : option string) : result Z :=
  match s with
  | None => Raise TypeError
  | Some x =>
      let body := lstrip x in
      let (neg, unsigned) :=
        match body with
        | String "-" r => (true, r)
        | String "+" r => (false, r)
        | _ => (false, body)
        end in
      match digits1 unsigned with
      | Some (d, r) =>
          match lstrip r with
          | EmptyString =>
              Ok (if neg then (- digits_value 0 d)%Z else digits_value 0 d)
          | _ => Raise ValueError
          end
      | None => Raise ValueError
      end
  end.

(** [assert c]. *)
Definition py_assert (c : bool) : result unit :=
  if c then Ok tt else Raise AssertionError.

(** [e.text == s] for a literal [s]. *)
Definition text_eqb (e : element) (s : string) : bool :=
  match text e with
  | Some t => str_eqb t s
  | None => false
  end.

(** [scripts[2:-1]]. *)
Definition slice_2_m1 {A : Type} (l : list A) : list A :=
  skipn 2 (firstn (length l - 1) l).

(** ** The pages

    [requests.get], the HTML parser and the XPath queries are not part of
    [vimorg.py].  A detail page enters as the three node lists its XPath
    queries select; the listing page as the node list [scripts]. *)

Record detail_page : Type := DetailPage {
  (** [html.xpath('//td[contains(text(),"Rating")]/b')] *)
  rating_b : list element;
  (** [html.xpath('//table[tbody/tr/td[contains(@class,"prompt")]]/*/*')] *)
  body_trs : list element;
  (** [html.xpath('//table[tbody/tr/th[text()="release notes"]]/*/*')] *)
  download_trs : list element
}.

Record plugin_info : Type := PluginInfo {
  vimorg_num_raters : Z;
  author : option string;
  vimorg_long_desc : string;
  vimorg_install_details : string;
  updated_at : Z;
  created_at : Z
}.

(** The dict [get_plugin_list] yields: the listing's keys, then the keys of
    [get_plugin_info]'s dict (the two key sets are disjoint). *)
Record merged_record : Type := MergedRecord {
  vimorg_url : string;
  vim_script_id : Z;
  name : option string;
  vimorg_type : option string;
  vimorg_rating : Z;
  vimorg_downloads : Z;
  vimorg_short_desc : option string;
  info : plugin_info
}.

(** What [logging.exception] records in the [except] clause: the two values
    formatted into the message, and the exception being handled. *)
Record log_entry : Type := LogEntry {
  log_name : option string;
  log_script_id : Z;
  log_exn : exn
}.

(** What a consumer of the generator observes: the dicts yielded, the
    failures logged, and the exception that ended the iteration, if one
    did. *)
Record run : Type := Run {
  emitted : list merged_record;
  logged : list log_entry;
  aborted : option exn
}.

Inductive row_outcome : Type :=
| Yielded (r : merged_record)
| Skipped (l : log_entry)
| Aborted (e : exn).

Section Scraper.

(** [datetime.datetime] values. *)
Variable datetime : Type.

(** [datetime.datetime.strptime(text, format)] on a [str]: [None] stands
    for the [ValueError] it raises when the text does not match. *)
Variable strptime : string -> string -> option datetime.

(** [util.to_timestamp]. *)
Variable to_timestamp : datetime -> Z.

(** [_get_innerhtml]: the serialisation of a node's content. *)
Variable _get_innerhtml : element -> string.

(** Lines 124-127 with the XPath queries: the detail page of a script,
    or the exception the request or the parser raised. *)
Variable fetch_detail : Z -> result detail_page.

(** Lines 28-36: the node list [scripts] of the listing page requested
    with [show_me=num], or the exception raised on the way. *)
Variable fetch_listing : Z -> result (list element).

Definition py_strptime (s : option string) (format : string)
  : result datetime :=
  match s with
  | None => Raise TypeError
  | Some x =>
      match strptime x format with
      | Some d => Ok d
      | None => Raise ValueError
      end
  end.

(** [l[i][j]] and [l[i][j][k].text]. *)
Definition cell (l : list element) (i j : nat) : result element :=
  r <- item l i ;; child r j.

(** Lines 149-156: the two dates of the release-notes rows. *)
Definition release_dates (download_trs : list element)
  : result (datetime * datetime) :=
  h <- cell download_trs 0 2 ;;
  py_assert (text_eqb h "date") ;;;
  u <- cell download_trs 1 2 ;;
  u0 <- child u 0 ;;
  let updated_date_text := text u0 in
  l <- item_last download_trs ;;
  c <- child l 2 ;;
  c0 <- child c 0 ;;
  let created_date_text := text c0 in
  let date_format := "%Y-%m-%d" in
  updated_date <- py_strptime updated_date_text date_format ;;
  created_date <- py_strptime created_date_text date_format ;;
  Ok (updated_date, created_date).

(** Lines 129-144: the rating, the author and the two cleaned nodes. *)
Definition page_fields (html : detail_page)
  : result (Z * option string * element * element) :=
  rating <- item (rating_b html) 0 ;;
  m <- py_re_search match_fraction (text rating) ;;
  g <- group m ;;
  let rating_denom := digits_value 0 (snd g) in
  c <- cell (body_trs html) 0 0 ;;
  py_assert (text_eqb c "created by") ;;;
  c <- cell (body_trs html) 1 0 ;;
  c <- child c 0 ;;
  let creator := text c in
  c <- cell (body_trs html) 6 0 ;;
  py_assert (text_eqb c "description") ;;;
  description_node <- cell (body_trs html) 7 0 ;;
  description_node <- _clean_text_node description_node ;;
  c <- cell (body_trs html) 9 0 ;;
  py_assert (text_eqb c "install details") ;;;
  install_node <- cell (body_trs html) 10 0 ;;
  install_node <- _clean_text_node install_node ;;
  Ok (rating_denom, creator, description_node, install_node).

Definition get_plugin_info (script_id : Z) : result plugin_info :=
  html <- fetch_detail script_id ;;
  f <- page_fields html ;;
  let '(rating_denom, creator, description_node, install_node) := f in
  dates <- release_dates (download_trs html) ;;
  let (updated_date, created_date) := dates in
  Ok (PluginInfo rating_denom creator
        (_get_innerhtml description_node)
        (_get_innerhtml install_node)
        (to_timestamp updated_date)
        (to_timestamp created_date)).

(** Lines 40-43. *)
Definition row_head (tr : element) : result (string * Z * option string) :=
  a <- (c <- child tr 0 ;; child c 0) ;;
  link <- attrib_get a "href" ;;
  m <- group (re_search match_script_id link) ;;
  let script_id := digits_value 0 m in
  a <- (c <- child tr 0 ;; child c 0) ;;
  Ok (link, script_id, text a).

(** Lines 57-66. *)
Definition row_record (tr : element) (script_id : Z)
  (extra : plugin_info) : result merged_record :=
  a <- (c <- child tr 0 ;; child c 0) ;;
  href <- attrib_get a "href" ;;
  a <- (c <- child tr 0 ;; child c 0) ;;
  let name := text a in
  ty <- child tr 1 ;;
  rating <- (c <- child tr 2 ;; py_int (text c)) ;;
  downloads <- (c <- child tr 3 ;; py_int (text c)) ;;
  d <- (c <- child tr 4 ;; child c 0) ;;
  Ok (MergedRecord ("http://www.vim.org/scripts/" ++ href) script_id
        name (text ty) rating downloads (text d) extra).

(** The body of the [for] loop on one row. *)
Definition process_row (tr : element) : row_outcome :=
  match row_head tr with
  | Raise e => Aborted e
  | Ok (link, script_id, name) =>
      match get_plugin_info script_id with
      | Raise e => Skipped (LogEntry name script_id e)
      | Ok extra =>
          match row_record tr script_id extra with
          | Raise e => Aborted e
          | Ok r => Yielded r
          end
      end
  end.

(** The row [tr] contributes the record [r]. *)
Definition yields (tr : element) (r : merged_record) : Prop :=
  process_row tr = Yielded r.

Fixpoint run_rows (rows : list element) : run :=
  match rows with
  | [] => Run [] [] None
  | tr :: rest =>
      match process_row tr with
      | Yielded r =>
          let k := run_rows rest in
          Run (r :: emitted k) (logged k) (aborted k)
      | Skipped l =>
          let k := run_rows rest in
          Run (emitted k) (l :: logged k) (aborted k)
      | Aborted e => Run [] [] (Some e)
      end
  end.

Definition get_plugin_list (num : Z) : run :=
  match fetch_listing num with
  | Raise e => Run [] [] (Some e)
  | Ok scripts => run_rows (slice_2_m1 scripts)
  end.

End Scraper.

(** ** Serialisation: [_get_outerhtml] and [_get_innerhtml]

    [lxml.html.tostring] is outside the file; it enters as a parameter.
    The three [re.sub(pattern, '', s, count=1)] calls are written as the
    scans they perform: the leftmost match is cut out, the rest is left
    as it is. *)

Definition gt : ascii := ">"%char.
Definition lt : ascii := "<"%char.
Definition newline : ascii := "010"%char.

(** Does [s] hold a [>]? *)
Fixpoint has_gt (s : string) : bool :=
  match s with
  | String c rest => Ascii.eqb c gt || has_gt rest
  | EmptyString => false
  end.

(** [re.sub(r'[^>]*$', '', s, count=1)].  The pattern matches at a
    position exactly when no [>] follows, and then up to the end. *)
Fixpoint sub_trailing_text (s : string) : string :=
  if has_gt s then
    match s with
    | String c rest => String c (sub_trailing_text rest)
    | EmptyString => ""
    end
  else "".

(** [[^<>]*?>] at the head of [s]: what follows the first [>], when no
    [<] stands before it. *)
Fixpoint skip_to_gt (s : string) : option string :=
  match s with
  | String c rest =>
      if Ascii.eqb c gt then Some rest
      else if Ascii.eqb c lt then None
      else skip_to_gt rest
  | EmptyString => None
  end.

(** [<[^<>]*?>] at the head of [s]: what follows the tag. *)
Definition match_tag (s : string) : option string :=
  match s with
  | String c rest => if Ascii.eqb c lt then skip_to_gt rest else None
  | EmptyString => None
  end.

(** [re.sub(r'^<[^<>]*?>', '', s, count=1)]. *)
Definition sub_open_tag (s : string) : string :=
  match match_tag s with
  | Some rest => rest
  | None => s
  end.

(** Where [$] matches: at the end, or before a newline that ends the
    string. *)
Definition at_end (s : string) : bool :=
  match s with
  | EmptyString => true
  | String c EmptyString => Ascii.eqb c newline
  | _ => false
  end.

(** [<[^<>]*?>$] at the head of [s]. *)
Definition match_last_tag (s : string) : option string :=
  match match_tag s with
  | Some rest => if at_end rest then Some rest else None
  | None => None
  end.

(** [re.sub(r'<[^<>]*?>$', '', s, count=1)]. *)
Fixpoint sub_close_tag (s : string) : string :=
  match match_last_tag s with
  | Some rest => rest
  | None =>
      match s with
      | String c rest => String c (sub_close_tag rest)
      | EmptyString => ""
      end
  end.

Definition _get_outerhtml (tostring : element -> string)
  (html_node : element) : string :=
  let html_string := tostring html_node in
  sub_trailing_text html_string.

Definition _get_innerhtml (tostring : element -> string)
  (html_node : element) : string :=
  let html_string := _get_outerhtml tostring html_node in
  let html_string := sub_open_tag html_string in
  sub_close_tag html_string.

(** ** The URLs requested *)

(** ['%d' % n]. *)
Definition py_fmt_d (n : Z) : string :=
  DecimalString.NilEmpty.string_of_int (Z.to_int n).

(** Line 29. *)
Definition listing_url (num : Z) : string :=
  "http://www.vim.org/scripts/script_search_results.php?show_me="
  ++ py_fmt_d num.

(** Line 125. *)
Definition detail_url (script_id : Z) : string :=
  "http://www.vim.org/scripts/script.php?script_id=" ++ py_fmt_d script_id.

(** ** Sample trees and pages *)

Definition leaf (t : string) (tl : option string) : element :=
  Element t [] None [] tl.

Definition br (tl : option string) : element := leaf "br" tl.

Definition anchor (href : string) (txt tl : option string) : element :=
  Element "a" [("href", href)] txt [] tl.

Definition td (t : option string) (cs : list element) : element :=
  Element "td" [] t cs None.

Definition tr (cs : list element) : element :=
  Element "tr" [] None cs None.

(** [<td><b><br></b></td>] *)
Definition frag_nested_br : element :=
  td None [Element "b" [] None [br None] None].

(** [<td>p<hr>x<br>y</td>] *)
Definition frag_br_after_hr : element :=
  td (Some "p") [leaf "hr" (Some "x"); br (Some "y")].

(** [<td>p<hr>x<a href="h">h</a> z</td>] *)
Definition frag_a_after_hr : element :=
  td (Some "p") [leaf "hr" (Some "x"); anchor "h" (Some "h") (Some " z")].

(** [<td>p<b><i></i></b><br>y</td>] *)
Definition frag_br_after_b : element :=
  td (Some "p") [Element "b" [] None [leaf "i" None] None; br (Some "y")].

(** [<td>p<b><i></i></b><a href="h">h</a></td>] *)
Definition frag_a_after_b : element :=
  td (Some "p") [Element "b" [] None [leaf "i" None] None;
                 anchor "h" (Some "h") None].

(** [<td>a<br><br>b<br><a href="u">u</a>c</td>] *)
Definition frag_runs : element :=
  td (Some "a") [br None; br (Some "b"); br None;
                 anchor "u" (Some "u") (Some "c")].

(** [<td>see <a href="u"><b>here</b></a></td>]: the anchor has no text of
    its own. *)
Definition frag_textless_a : element :=
  td (Some "see ")
     [Element "a" [("href", "u")] None
        [Element "b" [] (Some "here") [] None] None].

(** [<td>plain <b>bold</b> text</td>] *)
Definition frag_plain : element :=
  td (Some "plain ") [Element "b" [] (Some "bold") [] (Some " text")].

(** A stand-in for [strptime] in the examples: a date is kept as its
    year, month and day; only the format ["%Y-%m-%d"] is known, read as
    four digits, one or two digits, one or two digits. *)
Definition sample_strptime (s format : string) : option (Z * Z * Z) :=
  if str_eqb format "%Y-%m-%d" then
    match digits1 s with
    | Some (y, r) =>
        match drop_prefix "-" r with
        | Some r =>
            match digits1 r with
            | Some (m, r) =>
                match drop_prefix "-" r with
                | Some r =>
                    match digits1 r with
                    | Some (d, EmptyString) =>
                        if (String.length y =? 4)%nat
                           && (String.length m <=? 2)%nat
                           && (String.length d <=? 2)%nat
                        then Some (digits_value 0 y, digits_value 0 m,
                                   digits_value 0 d)
                        else None
                    | _ => None
                    end
                | None => None
                end
            | None => None
            end
        | None => None
        end
    | None => None
    end
  else None.

(** Days are enough to tell two sample dates apart. *)
Definition sample_to_timestamp (d : Z * Z * Z) : Z :=
  let '(y, m, dd) := d in ((y * 12 + m) * 31 + dd)%Z.

Definition sample_innerhtml (e : element) : string := text_content e.

(** A release row with [date] in its third cell. *)
Definition release_row (date : option string) : element :=
  tr [td (Some "pkg.vim") []; td (Some "1.0") [];
      td None [Element "i" [] date [] None]].

Definition release_header : element :=
  tr [Element "th" [] (Some "package") [] None;
      Element "th" [] (Some "script version") [] None;
      Element "th" [] (Some "date") [] None].

(** A detail page laid out as the code expects, with the given release
    rows below the header. *)
Definition sample_page (releases : list element) : detail_page :=
  DetailPage
    [Element "b" [] (Some "12/34") [] None]
    [tr [td (Some "created by") []];
     tr [td None [Element "a" [("href", "/account/profile.php")]
                    (Some "Bram") [] None]];
     tr []; tr []; tr []; tr [];
     tr [td (Some "description") []];
     tr [td (Some "line one") [br (Some "line two")]];
     tr [];
     tr [td (Some "install details") []];
     tr [td (Some "copy to ~/.vim") []]]
    (release_header :: releases).

Definition sample_releases : list element :=
  [release_row (Some "2013-04-01"); release_row (Some "2001-02-03")].

(** A listing row for script [id]. *)
Definition listing_row (href nm rating downloads : string) : element :=
  tr [td None [Element "a" [("href", href)] (Some nm) [] None];
      td (Some "utility") [];
      td (Some rating) [];
      td (Some downloads) [];
      td None [Element "i" [] (Some "short") [] None]].

Definition row1 : element :=
  listing_row "script.php?script_id=1" "one" "10" "100".
Definition row2 : element :=
  listing_row "script.php?script_id=2" "two" "20" "200".
Definition row3 : element :=
  listing_row "script.php?script_id=3" "three" "30" "300".

(** A row whose link carries no [script_id] parameter. *)
Definition row_no_id : element :=
  listing_row "script.php" "broken" "1" "1".

Definition header_row : element := tr [Element "th" [] (Some "Script") [] None].
Definition footer_row : element := tr [td (Some "prev | next") []].

(** A site on which every detail page is [sample_page], except that the
    request for script 2 fails. *)
Definition site_detail (script_id : Z) : result detail_page :=
  if (script_id =? 2)%Z then Raise RequestException
  else Ok (sample_page sample_releases).

(** A site whose listing always holds the same table. *)
Definition site_listing (scripts : list element) (num : Z)
  : result (list element) := Ok scripts.

Definition sample_get_plugin_info : Z -> result plugin_info :=
  get_plugin_info (Z * Z * Z) sample_strptime sample_to_timestamp
    sample_innerhtml site_detail.

Definition sample_run_rows : list element -> run :=
  run_rows (Z * Z * Z) sample_strptime sample_to_timestamp
    sample_innerhtml site_detail.

Definition sample_yields : element -> merged_record -> Prop :=
  yields (Z * Z * Z) sample_strptime sample_to_timestamp
    sample_innerhtml site_detail.

(** The listing table: two header rows, the given rows, a footer row. *)
Definition listing_table (rows : list element) : list element :=
  (header_row :: header_row :: rows ++ [footer_row])%list.

Definition sample_get_plugin_list (scripts : list element) : Z -> run :=
  get_plugin_list (Z * Z * Z) sample_strptime sample_to_timestamp
    sample_innerhtml site_detail (site_listing scripts).

(** ** Notions used in the statements *)

(** Everything of an element but its tail, the only part of a kept sibling
    the loop writes to. *)
Definition shape (e : element)
  : string * list (string * string) * option string * list element :=
  (tag e, attrib e, text e, children e).

(** The children the loop unlinks. *)
Definition removable (e : element) : bool :=
  str_eqb (tag e) "br" || str_eqb (tag e) "a".

Definition kept (l : list element) : list element :=
  filter (fun e => negb (removable e)) l.

(** The node [_clean_text_node] starts its loop on (lines 80-81). *)
Definition with_text_slot (node : element) : element :=
  if (0 <? length (children node))%nat && negb (truthy (text node))
  then set_text node (Some "")
  else node.

(** An anchor the code replaces by its text: the text is the [href] or
    mentions [vimscript]. *)
Definition citation (e : element) : bool :=
  match text e, assoc "href" (attrib e) with
  | Some t, Some h => str_eqb t h || contains "vimscript" t
  | _, _ => false
  end.

(** An anchor the code drops: not a citation, and the text mentions
    [vimtip]. *)
Definition tip (e : element) : bool :=
  match text e, assoc "href" (attrib e) with
  | Some t, Some h => negb (citation e) && contains "vimtip" t
  | _, _ => false
  end.

(** The children the page layout promises: [<br>], and [<a>] of a known
    kind. *)
Definition flat_child (e : element) : bool :=
  str_eqb (tag e) "br" ||
  (str_eqb (tag e) "a" && (citation e || tip e)).

(** The text a flat child leaves behind. *)
Definition piece (e : element) : string :=
  if str_eqb (tag e) "br" then opt_str (tail e)
  else if citation e then opt_str (text e) ++ opt_str (tail e)
  else "".

Fixpoint pieces (l : list element) : string :=
  match l with
  | [] => ""
  | e :: rest => piece e ++ pieces rest
  end.

(** No [<br>] and no [<a>] anywhere below [e]. *)
Definition no_br_no_a (e : element) : Prop :=
  forall d, In d (descendants e) -> tag d <> "br" /\ tag d <> "a".

(** Nothing but text in [e]. *)
Definition only_text (e : element) : Prop := children e = [].

(** The text of a list of siblings with their tails, as [text_content]
    reads it. *)
Fixpoint children_text (l : list element) : string :=
  match l with
  | [] => ""
  | c :: rest => text_content c ++ opt_str (tail c) ++ children_text rest
  end.

(** A child that holds nothing but what the cleaner keeps of it: an empty
    [<br>], or a citation anchor without child elements. *)
Definition plain_child (e : element) : bool :=
  match children e with
  | [] =>
      (str_eqb (tag e) "br" && match text e with None => true | _ => false end)
      || (str_eqb (tag e) "a" && citation e)
  | _ :: _ => false
  end.

(** [b] is the string [a] with something added at its end. *)
Definition extends (a b : option string) : Prop :=
  exists t s, a = Some t /\ b = Some (t ++ s).

(** No [<] and no [>] in [s]. *)
Fixpoint no_angle (s : string) : bool :=
  match s with
  | String c rest =>
      negb (Ascii.eqb c lt) && negb (Ascii.eqb c gt) && no_angle rest
  | EmptyString => true
  end.

(** [s] does not start with a digit. *)
Definition no_digit_ahead (s : string) : bool :=
  match s with
  | String c _ => negb (is_digit c)
  | EmptyString => true
  end.

(** * Properties *)

(** ** Results *)

Lemma bind_ok {A B : Type} (r : result A) (k : A -> result B) (b : B) :
  bind r k = Ok b -> exists a, r = Ok a /\ k a = Ok b.
Proof.
  destruct r as [a | e]; simpl; intro H; [exists a; auto | discriminate].
Qed.

Lemma bind_raise {A B : Type} (r : result A) (k : A -> result B) (e : exn) :
  r = Raise e -> bind r k = Raise e.
Proof. intros ->; reflexivity. Qed.

Lemma raises_bind {A B : Type} (r : result A) (k : A -> result B) :
  (forall a, r = Ok a -> raises (k a)) -> raises (bind r k).
Proof.
  destruct r as [a | e]; simpl; intro H.
  - apply H; reflexivity.
  - exists e; reflexivity.
Qed.

Ltac bind_inv H :=
  let a := fresh "a" in
  let Ha := fresh "Ha" in
  apply bind_ok in H; destruct H as (a & Ha & H).

(** ** The cleaner keeps what is neither [<br>] nor [<a>] *)

Lemma shape_set_tail (p : element) (v : option string) :
  shape (set_tail p v) = shape p.
Proof. reflexivity. Qed.

Lemma prev_tail_iadd_shape (w w' : walk) (s : option string) :
  prev_tail_iadd w s = Ok w' ->
  map shape (prevs w') = map shape (prevs w).
Proof.
  unfold prev_tail_iadd. destruct (prevs w) as [| p before]; [discriminate |].
  intro H. bind_inv H. injection H as <-. reflexivity.
Qed.

Lemma parent_text_iadd_prevs (w w' : walk) (s : option string) :
  parent_text_iadd w s = Ok w' -> prevs w' = prevs w.
Proof.
  unfold parent_text_iadd. intro H. bind_inv H. injection H as <-. reflexivity.
Qed.

Lemma when_shape (c : bool) (w w' : walk) (body : walk -> result walk) :
  (forall u u', body u = Ok u' -> map shape (prevs u') = map shape (prevs u)) ->
  when c w body = Ok w' -> map shape (prevs w') = map shape (prevs w).
Proof.
  intros Hb. unfold when. destruct c; [apply Hb |].
  intro H; injection H as <-; reflexivity.
Qed.

Lemma clean_step_shape (w w' : walk) (elem : element) :
  clean_step w elem = Ok w' ->
  map shape (prevs w') =
  map shape (if removable elem then prevs w else elem :: prevs w).
Proof.
  unfold clean_step, removable.
  destruct (str_eqb (tag elem) "br"); simpl.
  - apply when_shape. intros u u'.
    destruct (elem_truthy (getprevious u)).
    + apply prev_tail_iadd_shape.
    + intro H. apply parent_text_iadd_prevs in H. now rewrite H.
  - destruct (str_eqb (tag elem) "a").
    + intro H. bind_inv H. destruct a.
      * destruct (elem_truthy (getprevious w)); bind_inv H.
        -- apply prev_tail_iadd_shape in Ha0. rewrite <- Ha0.
           revert H. apply when_shape. intros u u'. apply prev_tail_iadd_shape.
        -- apply parent_text_iadd_prevs in Ha0. rewrite <- Ha0.
           revert H. apply when_shape. intros u u' Hu.
           apply parent_text_iadd_prevs in Hu. now rewrite Hu.
      * bind_inv H. destruct a.
        -- injection H as <-. reflexivity.
        -- bind_inv H. discriminate.
    + intro H. injection H as <-. reflexivity.
Qed.

Lemma clean_loop_shape (todo : list element) : forall (w w' : walk),
  clean_loop w todo = Ok w' ->
  map shape (prevs w') = map shape (rev (kept todo) ++ prevs w)%list.
Proof.
  induction todo as [| elem rest IH]; simpl; intros w w' H.
  - injection H as <-. reflexivity.
  - bind_inv H. apply IH in H. apply clean_step_shape in Ha.
    rewrite H, map_app, Ha. unfold kept at 2. simpl. fold (kept rest).
    destruct (removable elem); simpl.
    + now rewrite map_app.
    + rewrite !map_app. simpl. now rewrite <- app_assoc.
Qed.

Lemma children_with_text_slot (node : element) :
  children (with_text_slot node) = children node.
Proof.
  unfold with_text_slot.
  destruct ((0 <? length (children node))%nat && negb (truthy (text node)));
    reflexivity.
Qed.

Lemma clean_text_node_unfold (node : element) :
  _clean_text_node node =
  bind (clean_loop (Walk (text (with_text_slot node)) []) (children node))
       (fun w => Ok (set_children (set_text (with_text_slot node) (ptext w))
                       (rev (prevs w)))).
Proof.
  unfold _clean_text_node. fold (with_text_slot node).
  now rewrite children_with_text_slot.
Qed.

Lemma clean_children_shape (node node' : element) :
  _clean_text_node node = Ok node' ->
  map shape (children node') = map shape (kept (children node)).
Proof.
  rewrite clean_text_node_unfold. intro H. bind_inv H.
  injection H as <-. simpl. apply clean_loop_shape in Ha.
  rewrite app_nil_r in Ha. rewrite map_rev, Ha, map_rev. apply rev_involutive.
Qed.

Lemma removable_spec (e : element) :
  removable e = false <-> tag e <> "br" /\ tag e <> "a".
Proof.
  unfold removable, str_eqb. rewrite orb_false_iff.
  split; intros [H1 H2]; split.
  - intro E. apply String.eqb_eq in E. congruence.
  - intro E. apply String.eqb_eq in E. congruence.
  - apply String.eqb_neq; assumption.
  - apply String.eqb_neq; assumption.
Qed.

Lemma kept_nil (l : list element) :
  Forall (fun c => tag c = "br" \/ tag c = "a") l -> kept l = [].
Proof.
  induction 1 as [| c l Hc _ IH]; simpl; [reflexivity |].
  unfold kept; simpl. fold (kept l).
  replace (removable c) with true; [exact IH |].
  unfold removable, str_eqb. symmetry. apply orb_true_iff.
  destruct Hc as [-> | ->]; [left | right]; reflexivity.
Qed.

Lemma kept_all (l : list element) :
  (forall c, In c l -> tag c <> "br" /\ tag c <> "a") -> kept l = l.
Proof.
  induction l as [| c l IH]; simpl; intro H; [reflexivity |].
  unfold kept; simpl. fold (kept l).
  replace (removable c) with false.
  - simpl. f_equal. apply IH. intros d Hd. apply H. now right.
  - symmetry. apply removable_spec. apply H. now left.
Qed.

(** C1 (as amended).  When [_clean_text_node] returns, no child of the node
    is a [<br>] or an [<a>]: the children left are the children that were
    neither, in their order and unchanged but for their tails.  This covers
    runs of [<br>] and a [<br>] followed by an [<a>].  A node whose
    children were all [<br>] or [<a>] is left with text only. *)
Theorem clean_removes_br_and_a_children (node node' : element) :
  _clean_text_node node = Ok node' ->
  (forall c, In c (children node') -> tag c <> "br" /\ tag c <> "a") /\
  map shape (children node') = map shape (kept (children node)) /\
  (Forall (fun c => tag c = "br" \/ tag c = "a") (children node) ->
   only_text node').
Proof.
  intro H. pose proof (clean_children_shape _ _ H) as Hs.
  split; [| split; [exact Hs |]].
  - intros c Hc.
    assert (Hin : In (shape c) (map shape (kept (children node)))).
    { rewrite <- Hs. now apply in_map. }
    apply in_map_iff in Hin. destruct Hin as (c0 & Heq & Hin0).
    unfold kept in Hin0. apply filter_In in Hin0. destruct Hin0 as [_ Hr].
    apply negb_true_iff in Hr. apply removable_spec in Hr.
    assert (Ht : tag c0 = tag c) by (unfold shape in Heq; congruence).
    rewrite <- Ht. exact Hr.
  - intro Hall. unfold only_text. rewrite (kept_nil _ Hall) in Hs.
    destruct (children node'); [reflexivity | discriminate].
Qed.

Lemma clean_removes_br_and_a_children_witness :
  (forall c, In c (children (td (Some "abuc") [])) ->
             tag c <> "br" /\ tag c <> "a") /\
  map shape (children (td (Some "abuc") [])) =
  map shape (kept (children frag_runs)) /\
  (Forall (fun c => tag c = "br" \/ tag c = "a") (children frag_runs) ->
   only_text (td (Some "abuc") [])).
Proof.
  apply (clean_removes_br_and_a_children frag_runs). reflexivity.
Defined.

(** C1, as stated, fails on [<td><b><br></b></td>]: the cleaner returns,
    the [<b>] is still a child and the [<br>] inside it is still there. *)
Lemma clean_leaves_nested_br :
  exists node',
    _clean_text_node frag_nested_br = Ok node' /\
    ~ no_br_no_a node' /\ ~ only_text node'.
Proof.
  eexists. split; [reflexivity |]. split.
  - intro H. destruct (H (br None)) as [Hbr _].
    + simpl. right. left. reflexivity.
    + apply Hbr. reflexivity.
  - intro H. discriminate H.
Qed.

(** ** Nodes without [<br>] and [<a>] children *)

Lemma clean_step_keep (w : walk) (elem : element) :
  removable elem = false -> clean_step w elem = Ok (keep w elem).
Proof.
  unfold removable, clean_step. intro H. apply orb_false_iff in H.
  destruct H as [-> ->]. reflexivity.
Qed.

Lemma clean_loop_keep (todo : list element) : forall w,
  (forall c, In c todo -> removable c = false) ->
  clean_loop w todo = Ok (Walk (ptext w) (rev todo ++ prevs w)%list).
Proof.
  induction todo as [| elem rest IH]; simpl; intros w H.
  - destruct w; reflexivity.
  - rewrite clean_step_keep by (apply H; now left). simpl.
    rewrite IH by (intros c Hc; apply H; now right). simpl.
    now rewrite <- app_assoc.
Qed.

Lemma text_content_eq (e e' : element) :
  opt_str (text e) = opt_str (text e') -> children e = children e' ->
  text_content e = text_content e'.
Proof.
  destruct e, e'; simpl. intros -> ->. reflexivity.
Qed.

Lemma opt_str_with_text_slot (node : element) :
  opt_str (text (with_text_slot node)) = opt_str (text node).
Proof.
  unfold with_text_slot.
  destruct (0 <? length (children node))%nat; simpl; [| reflexivity].
  destruct (text node) as [[| c s] |] eqn:E; simpl; rewrite ?E; reflexivity.
Qed.

(** C9.  On a node with no [<br>] and no [<a>] child the cleaner returns
    and leaves the text content as it was; the children are untouched, and
    a node with no child at all comes back identical. *)
Theorem clean_noop_without_br_a (node : element) :
  (forall c, In c (children node) -> tag c <> "br" /\ tag c <> "a") ->
  exists node',
    _clean_text_node node = Ok node' /\
    text_content node' = text_content node /\
    children node' = children node /\
    (children node = [] -> node' = node).
Proof.
  intro H. rewrite clean_text_node_unfold.
  rewrite clean_loop_keep by (intros c Hc; apply removable_spec; auto).
  simpl. rewrite app_nil_r, rev_involutive.
  eexists. split; [reflexivity |]. split; [| split].
  - apply text_content_eq; simpl; [apply opt_str_with_text_slot | reflexivity].
  - reflexivity.
  - intro Hnil. unfold with_text_slot. rewrite Hnil. simpl.
    destruct node; simpl in *. now subst.
Qed.

Lemma clean_noop_without_br_a_witness :
  exists node',
    _clean_text_node frag_plain = Ok node' /\
    text_content node' = text_content frag_plain /\
    children node' = children frag_plain /\
    (children frag_plain = [] -> node' = frag_plain).
Proof.
  apply (clean_noop_without_br_a frag_plain).
  intros c [<- | []]. split; discriminate.
Defined.

(** ** Anchors without text *)

Lemma clean_step_textless_anchor (w : walk) (a : element) :
  tag a = "a" -> text a = None -> raises (clean_step w a).
Proof.
  intros Htag Htext. unfold clean_step. rewrite Htag. simpl.
  unfold py_or, text_is_href. rewrite Htext.
  destruct (attrib_get a "href") as [href | e]; simpl.
  - exists TypeError. reflexivity.
  - exists e. reflexivity.
Qed.

Lemma clean_loop_textless_anchor (todo : list element) (a : element) :
  In a todo -> tag a = "a" -> text a = None ->
  forall w, raises (clean_loop w todo).
Proof.
  intros Hin Htag Htext.
  induction todo as [| elem rest IH]; [destruct Hin |].
  intro w. simpl. apply raises_bind. intros w1 Hw1.
  destruct Hin as [-> | Hin].
  - destruct (clean_step_textless_anchor w a Htag Htext) as [e He].
    congruence.
  - now apply IH.
Qed.

(** C10.  A node with an [<a>] child that has no text of its own is never
    cleaned: [_clean_text_node] raises. *)
Theorem clean_fails_on_textless_anchor (node a : element) :
  In a (children node) -> tag a = "a" -> text a = None ->
  exists e, _clean_text_node node = Raise e.
Proof.
  intros Hin Htag Htext. rewrite clean_text_node_unfold.
  apply raises_bind. intros w Hw.
  destruct (clean_loop_textless_anchor _ a Hin Htag Htext
              (Walk (text (with_text_slot node)) [])) as [e He].
  congruence.
Qed.

Lemma clean_fails_on_textless_anchor_witness :
  exists e, _clean_text_node frag_textless_a = Raise e.
Proof.
  apply (clean_fails_on_textless_anchor frag_textless_a
           (Element "a" [("href", "u")] None
              [Element "b" [] (Some "here") [] None] None)).
  - left. reflexivity.
  - reflexivity.
  - reflexivity.
Defined.

(** Cleaning returns only on nodes whose anchors all carry text. *)
Corollary clean_returns_anchors_have_text (node node' : element) :
  _clean_text_node node = Ok node' ->
  forall a, In a (children node) -> tag a = "a" -> text a <> None.
Proof.
  intros H a Hin Htag Htext.
  destruct (clean_loop_textless_anchor _ a Hin Htag Htext
              (Walk (text (with_text_slot node)) [])) as [e He].
  rewrite clean_text_node_unfold, He in H. discriminate.
Qed.

(** ** Where the text of a removed element goes *)

(** A [<br>] with tail text and no sibling before it: the tail joins the
    parent's text. *)
Lemma br_step_first (t tl : string) (elem : element) :
  tag elem = "br" -> tail elem = Some tl -> tl <> "" ->
  clean_step (Walk (Some t) []) elem = Ok (Walk (Some (t ++ tl)) []).
Proof.
  intros Htag Htail Hne. unfold clean_step. rewrite Htag, Htail. simpl.
  destruct tl; [congruence | reflexivity].
Qed.

(** A [<br>] with tail text after a sibling that has children and a tail:
    the tail joins the sibling's tail. *)
Lemma br_step_after_parent_like (pt : option string) (p : element)
  (before : list element) (ptl tl : string) (elem : element) :
  tag elem = "br" -> tail elem = Some tl -> tl <> "" ->
  children p <> [] -> tail p = Some ptl ->
  clean_step (Walk pt (p :: before)) elem =
  Ok (Walk pt (set_tail p (Some (ptl ++ tl)) :: before)).
Proof.
  intros Htag Htail Hne Hch Hpt. unfold clean_step. rewrite Htag, Htail. simpl.
  destruct tl; [congruence |]. simpl.
  destruct (children p) eqn:E; [congruence |].
  unfold prev_tail_iadd. simpl. rewrite Hpt. reflexivity.
Qed.

(** A [<br>] with tail text after a sibling without children: the test
    [if elem.getprevious():] is false and the tail joins the parent's text,
    in front of that sibling. *)
Lemma br_step_after_childless (t : string) (p : element)
  (before : list element) (tl : string) (elem : element) :
  tag elem = "br" -> tail elem = Some tl -> tl <> "" ->
  children p = [] ->
  clean_step (Walk (Some t) (p :: before)) elem =
  Ok (Walk (Some (t ++ tl)) (p :: before)).
Proof.
  intros Htag Htail Hne Hch. unfold clean_step. rewrite Htag, Htail. simpl.
  destruct tl; [congruence |]. simpl. rewrite Hch. reflexivity.
Qed.

(** The three ways the loop body treats an [<a>] that has an [href] and
    text: replaced by its text when the text is the [href] or mentions
    [vimscript], dropped when it mentions [vimtip], an exception naming
    [href] and text otherwise. *)
Lemma anchor_step_cases (w : walk) (a : element) (href t : string) :
  tag a = "a" -> assoc "href" (attrib a) = Some href -> text a = Some t ->
  clean_step w a =
  if str_eqb t href || contains "vimscript" t then
    if elem_truthy (getprevious w) then
      w1 <- prev_tail_iadd w (Some t) ;;
      when (truthy (tail a)) w1 (fun w1 => prev_tail_iadd w1 (tail a))
    else
      w1 <- parent_text_iadd w (Some t) ;;
      when (truthy (tail a)) w1 (fun w1 => parent_text_iadd w1 (tail a))
  else if contains "vimtip" t then Ok w
  else Raise (weird_link href t).
Proof.
  intros Htag Hhref Htext. unfold clean_step. rewrite Htag. simpl.
  unfold py_or, text_is_href, attrib_get. rewrite Hhref, Htext. simpl.
  destruct (str_eqb t href); simpl; [reflexivity |].
  destruct (contains "vimscript" t); simpl; [reflexivity |].
  destruct (contains "vimtip" t); reflexivity.
Qed.

Lemma string_app_nil_r (s : string) : s ++ "" = s.
Proof. induction s as [| c s IH]; simpl; [reflexivity | now rewrite IH]. Qed.

Lemma string_app_assoc (a b c : string) : (a ++ b) ++ c = a ++ b ++ c.
Proof. induction a as [| x a IH]; simpl; [reflexivity | now rewrite IH]. Qed.

Lemma when_parent_text_iadd (t : string) (tl : option string) :
  when (truthy tl) (Walk (Some t) [])
       (fun w => parent_text_iadd w tl) =
  Ok (Walk (Some (t ++ opt_str tl)) []).
Proof.
  destruct tl as [[| c s] |]; simpl; rewrite ?string_app_nil_r; reflexivity.
Qed.

Lemma clean_step_flat (t : string) (elem : element) :
  flat_child elem = true ->
  clean_step (Walk (Some t) []) elem = Ok (Walk (Some (t ++ piece elem)) []).
Proof.
  unfold flat_child, piece, clean_step.
  destruct (str_eqb (tag elem) "br"); simpl.
  - intros _. apply when_parent_text_iadd.
  - destruct (str_eqb (tag elem) "a"); simpl; [| discriminate].
    unfold tip, py_or, text_is_href, attrib_get, citation.
    destruct (text elem) as [tx |]; [| discriminate].
    destruct (assoc "href" (attrib elem)) as [h |]; [| discriminate].
    simpl. destruct (str_eqb tx h); simpl.
    + intros _. unfold parent_text_iadd at 1. simpl.
      rewrite when_parent_text_iadd. now rewrite string_app_assoc.
    + destruct (contains "vimscript" tx); simpl.
      * intros _. unfold parent_text_iadd at 1. simpl.
        rewrite when_parent_text_iadd. now rewrite string_app_assoc.
      * intros ->. simpl. now rewrite string_app_nil_r.
Qed.

Lemma clean_loop_flat (todo : list element) : forall t,
  forallb flat_child todo = true ->
  clean_loop (Walk (Some t) []) todo =
  Ok (Walk (Some (t ++ pieces todo)) []).
Proof.
  induction todo as [| elem rest IH]; simpl; intros t H.
  - now rewrite string_app_nil_r.
  - apply andb_true_iff in H. destruct H as [He Hr].
    rewrite (clean_step_flat _ _ He). simpl.
    rewrite (IH _ Hr). now rewrite string_app_assoc.
Qed.

(** On the fragments the page layout promises, with only [<br>] and
    anchors of a known kind as children, the cleaner returns the node with
    no child and with every piece of text joined in document order: each
    [<br>] gives way to its tail, each citation to its text and tail, and
    a [vimtip] anchor goes with its tail. *)
Lemma clean_flat_fragment (node : element) :
  children node <> [] -> forallb flat_child (children node) = true ->
  _clean_text_node node =
  Ok (set_children
        (set_text node (Some (opt_str (text node) ++ pieces (children node))))
        []).
Proof.
  intros Hne Hflat. rewrite clean_text_node_unfold.
  assert (Ht : text (with_text_slot node) = Some (opt_str (text node))).
  { unfold with_text_slot. destruct (children node); [congruence |]. simpl.
    destruct (text node) as [[| c s] |] eqn:E; simpl; rewrite ?E; reflexivity. }
  rewrite Ht, (clean_loop_flat _ _ Hflat). simpl.
  unfold with_text_slot.
  destruct ((0 <? length (children node))%nat && negb (truthy (text node)));
    reflexivity.
Qed.

(** C4: the code at [<td>p<hr>x<br>y</td>].  The [<hr>] before the [<br>]
    has no children, so [y] is joined to the parent's text and ends up in
    front of the [<hr>]: the text reads [pyx], not [pxy], and the tail of
    the [<hr>] is still [x]. *)
Theorem br_tail_after_childless_sibling :
  _clean_text_node frag_br_after_hr =
    Ok (td (Some "py") [leaf "hr" (Some "x")]) /\
  text_content frag_br_after_hr = "pxy" /\
  text_content (td (Some "py") [leaf "hr" (Some "x")]) = "pyx".
Proof. repeat split. Qed.

(** C5: the code at [<td>p<hr>x<a href="h">h</a> z</td>].  The anchor is
    of the first recognised kind; its text and tail are joined to the
    parent's text, in front of the [<hr>], not where the anchor stood. *)
Theorem anchor_text_after_childless_sibling :
  _clean_text_node frag_a_after_hr =
    Ok (td (Some "ph z") [leaf "hr" (Some "x")]) /\
  text_content frag_a_after_hr = "pxh z" /\
  text_content (td (Some "ph z") [leaf "hr" (Some "x")]) = "ph zx".
Proof. repeat split. Qed.

(** C6: the code at [<td>p<b><i></i></b><a href="h">h</a></td>] and at
    [<td>p<b><i></i></b><br>y</td>].  The node has text, and its one
    anchor is a citation; the [<b>] before the removed element has a
    child and no tail, and [elem.getprevious().tail += ...] raises
    [TypeError]. *)
Theorem append_onto_missing_tail_raises :
  truthy (text frag_a_after_b) = true /\
  _clean_text_node frag_a_after_b = Raise TypeError /\
  _clean_text_node frag_br_after_b = Raise TypeError.
Proof. repeat split. Qed.

(** With the text slot in place, joining onto the parent's text never
    raises: only the sibling path can. *)
Lemma parent_text_iadd_ok (t s : string) (before : list element) :
  parent_text_iadd (Walk (Some t) before) (Some s) =
  Ok (Walk (Some (t ++ s)) before).
Proof. reflexivity. Qed.

(** ** The slice [scripts[2:-1]] *)

Lemma slice_2_m1_length {A : Type} (l : list A) :
  length (slice_2_m1 l) = length l - 3.
Proof.
  unfold slice_2_m1. rewrite length_skipn, length_firstn. lia.
Qed.

Lemma slice_2_m1_middle {A : Type} (a b z : A) (mid : list A) :
  slice_2_m1 (a :: b :: mid ++ [z]) = mid.
Proof.
  unfold slice_2_m1.
  replace (length (a :: b :: mid ++ [z]) - 1) with (2 + length mid)
    by (simpl; rewrite length_app; simpl; lia).
  simpl. now rewrite firstn_app, firstn_all, Nat.sub_diag, app_nil_r.
Qed.

Lemma slice_2_m1_short {A : Type} (l : list A) :
  length l <= 3 -> slice_2_m1 l = [].
Proof.
  intro H. apply length_zero_iff_nil. rewrite slice_2_m1_length. lia.
Qed.

Section ScraperProperties.

Variable datetime : Type.
Variable strptime : string -> string -> option datetime.
Variable to_timestamp : datetime -> Z.
Variable _get_innerhtml : element -> string.
Variable fetch_detail : Z -> result detail_page.
Variable fetch_listing : Z -> result (list element).

Local Abbreviation release_dates := (release_dates datetime strptime).
Local Abbreviation get_plugin_info :=
  (get_plugin_info datetime strptime to_timestamp _get_innerhtml
     fetch_detail).
Local Abbreviation process_row :=
  (process_row datetime strptime to_timestamp _get_innerhtml fetch_detail).
Local Abbreviation yields :=
  (yields datetime strptime to_timestamp _get_innerhtml fetch_detail).
Local Abbreviation run_rows :=
  (run_rows datetime strptime to_timestamp _get_innerhtml fetch_detail).
Local Abbreviation get_plugin_list :=
  (get_plugin_list datetime strptime to_timestamp _get_innerhtml
     fetch_detail fetch_listing).

(** *** Rows *)

Lemma run_rows_yielded (tr : element) (rest : list element)
  (r : merged_record) :
  process_row tr = Yielded r ->
  run_rows (tr :: rest) =
  Run (r :: emitted (run_rows rest)) (logged (run_rows rest))
      (aborted (run_rows rest)).
Proof. intro H. simpl. rewrite H. reflexivity. Qed.

Lemma run_rows_skipped (tr : element) (rest : list element)
  (l : log_entry) :
  process_row tr = Skipped l ->
  run_rows (tr :: rest) =
  Run (emitted (run_rows rest)) (l :: logged (run_rows rest))
      (aborted (run_rows rest)).
Proof. intro H. simpl. rewrite H. reflexivity. Qed.

Lemma process_row_detail_failure (tr : element) (link : string)
  (script_id : Z) (name : option string) (e : exn) :
  row_head tr = Ok (link, script_id, name) ->
  get_plugin_info script_id = Raise e ->
  process_row tr = Skipped (LogEntry name script_id e).
Proof.
  intros Hh Hi. unfold process_row. rewrite Hh, Hi. reflexivity.
Qed.

Lemma emitted_le_rows (rows : list element) :
  length (emitted (run_rows rows)) <= length rows.
Proof.
  induction rows as [| tr rest IH]; simpl; [lia |].
  destruct (process_row tr); simpl; lia.
Qed.

(** Rows that all contribute a record: the records come out in the
    order of the rows, nothing is logged and the iteration ends
    normally. *)
Lemma run_rows_all_yield (rows : list element) :
  Forall (fun r => exists rec, yields r rec) rows ->
  Forall2 yields rows (emitted (run_rows rows)) /\
  logged (run_rows rows) = [] /\ aborted (run_rows rows) = None.
Proof.
  induction 1 as [| tr rest [rec Hrec] _ IH].
  - simpl. repeat split. constructor.
  - rewrite (run_rows_yielded _ _ _ Hrec). simpl.
    destruct IH as (IH1 & IH2 & IH3). repeat split; auto.
Qed.

Lemma run_rows_app (pre rest : list element) :
  Forall (fun r => exists rec, yields r rec) pre ->
  run_rows (pre ++ rest) =
  Run (emitted (run_rows pre) ++ emitted (run_rows rest))%list
      (logged (run_rows rest)) (aborted (run_rows rest)).
Proof.
  induction 1 as [| tr pre [rec Hrec] _ IH].
  - simpl. destruct (run_rows rest); reflexivity.
  - rewrite <- app_comm_cons.
    rewrite !(run_rows_yielded _ _ _ Hrec), IH. reflexivity.
Qed.

(** An exception ends the iteration only when it comes from reading the
    row itself, before or after the call of [get_plugin_info]. *)
Lemma abort_comes_from_the_row (rows : list element) (e : exn) :
  aborted (run_rows rows) = Some e ->
  exists tr, In tr rows /\
    (row_head tr = Raise e \/
     exists script_id extra, row_record tr script_id extra = Raise e).
Proof.
  induction rows as [| tr rest IH]; simpl; [discriminate |].
  destruct (process_row tr) as [r | l | e0] eqn:E; simpl.
  - intro H. destruct (IH H) as (t & Hin & Ht). exists t. auto.
  - intro H. destruct (IH H) as (t & Hin & Ht). exists t. auto.
  - intro H. injection H as ->. exists tr. split; [now left |].
    unfold process_row in E.
    destruct (row_head tr) as [[[link id] nm] | e1]; [| left; congruence].
    destruct (get_plugin_info id) as [extra | e2]; [| discriminate].
    destruct (row_record tr id extra) as [r | e3] eqn:E3; [discriminate |].
    right. exists id, extra. congruence.
Qed.

(** C2 (as amended).  An exception raised by [get_plugin_info] for a row
    is caught: it is logged with the row's name and identifier, the row
    contributes no record, and the loop goes on with the next row, so
    that what follows is what the remaining rows give.  No such exception
    ends the iteration: one that does was raised while a row itself was
    read. *)
Theorem detail_failure_logged_and_skipped (tr : element)
  (rest : list element) (link : string) (script_id : Z)
  (name : option string) (e : exn) :
  row_head tr = Ok (link, script_id, name) ->
  get_plugin_info script_id = Raise e ->
  run_rows (tr :: rest) =
  Run (emitted (run_rows rest))
      (LogEntry name script_id e :: logged (run_rows rest))
      (aborted (run_rows rest)) /\
  (forall rows e',
      aborted (run_rows rows) = Some e' ->
      exists r, In r rows /\
        (row_head r = Raise e' \/
         exists id extra, row_record r id extra = Raise e')).
Proof.
  intros Hh Hi. split.
  - apply run_rows_skipped.
    now apply process_row_detail_failure with (link := link).
  - apply abort_comes_from_the_row.
Qed.

(** C3.  When the rows of the listing are [pre ++ tr :: post], the
    detail fetch of [tr] fails and every other row contributes a
    record, the generator yields one record per other row, in the order
    of the rows, which makes one less than there are rows; it logs the
    one failure, with the name and identifier of [tr], and ends
    normally. *)
Theorem one_failed_detail_fetch (num : Z) (scripts pre post : list element)
  (tr : element) (link : string) (script_id : Z) (name : option string)
  (e : exn) :
  fetch_listing num = Ok scripts ->
  slice_2_m1 scripts = (pre ++ tr :: post)%list ->
  Forall (fun r => exists rec, yields r rec) (pre ++ post) ->
  row_head tr = Ok (link, script_id, name) ->
  get_plugin_info script_id = Raise e ->
  let out := get_plugin_list num in
  length (emitted out) = length (pre ++ tr :: post) - 1 /\
  Forall2 yields (pre ++ post) (emitted out) /\
  logged out = [LogEntry name script_id e] /\
  aborted out = None.
Proof.
  intros Hf Hs Hall Hh Hi out. subst out.
  unfold get_plugin_list. rewrite Hf, Hs.
  apply Forall_app in Hall. destruct Hall as [Hpre Hpost].
  rewrite (run_rows_app _ _ Hpre).
  rewrite (run_rows_skipped _ _ _
             (process_row_detail_failure _ _ _ _ _ Hh Hi)).
  destruct (run_rows_all_yield _ Hpre) as (P1 & _ & _).
  destruct (run_rows_all_yield _ Hpost) as (Q1 & Q2 & Q3).
  simpl. rewrite Q2, Q3.
  assert (F : Forall2 yields (pre ++ post)
                (emitted (run_rows pre) ++ emitted (run_rows post))).
  { now apply Forall2_app. }
  repeat split; auto.
  apply Forall2_length in F. rewrite <- F, !length_app. simpl. lia.
Qed.

(** C7 (as amended).  The rows the loop runs over are those of the
    located table without the first two and the last, whatever [num]
    is, and the generator yields at most as many records as the table
    has rows, less three. *)
Theorem listing_rows_and_bound (num : Z) (scripts : list element) :
  fetch_listing num = Ok scripts ->
  get_plugin_list num = run_rows (slice_2_m1 scripts) /\
  (forall a b z mid, scripts = (a :: b :: mid ++ [z])%list ->
                     slice_2_m1 scripts = mid) /\
  (length scripts <= 3 -> slice_2_m1 scripts = []) /\
  length (emitted (get_plugin_list num)) <= length scripts - 3.
Proof.
  intro Hf. unfold get_plugin_list. rewrite Hf.
  split; [reflexivity |]. split; [| split].
  - intros a b z mid ->. apply slice_2_m1_middle.
  - apply slice_2_m1_short.
  - rewrite <- slice_2_m1_length. apply emitted_le_rows.
Qed.

(** *** The release dates *)

Lemma text_eqb_true (h : element) (s : string) :
  text h = Some s -> text_eqb h s = true.
Proof.
  intro H. unfold text_eqb, str_eqb. rewrite H. apply String.eqb_refl.
Qed.

Lemma text_eqb_false (h : element) (s : string) :
  text h <> Some s -> text_eqb h s = false.
Proof.
  intro H. unfold text_eqb, str_eqb. destruct (text h) as [t |]; auto.
  apply String.eqb_neq. congruence.
Qed.

Lemma text_eqb_inv (h : element) (s : string) :
  text_eqb h s = true -> text h = Some s.
Proof.
  unfold text_eqb, str_eqb. destruct (text h) as [t |]; [| discriminate].
  intro H. apply String.eqb_eq in H. congruence.
Qed.

Lemma release_dates_header (dl : list element) (h : element) :
  cell dl 0 2 = Ok h -> text h <> Some "date" ->
  release_dates dl = Raise AssertionError.
Proof.
  intros Hh Ht. unfold release_dates. rewrite Hh. simpl.
  rewrite (text_eqb_false _ _ Ht). reflexivity.
Qed.

Lemma release_dates_parse (dl : list element) (h u u0 l c c0 : element)
  (ut ct : string) :
  cell dl 0 2 = Ok h -> text h = Some "date" ->
  cell dl 1 2 = Ok u -> child u 0 = Ok u0 -> text u0 = Some ut ->
  item_last dl = Ok l -> child l 2 = Ok c -> child c 0 = Ok c0 ->
  text c0 = Some ct ->
  release_dates dl =
  match strptime ut "%Y-%m-%d", strptime ct "%Y-%m-%d" with
  | Some ud, Some cd => Ok (ud, cd)
  | _, _ => Raise ValueError
  end.
Proof.
  intros Hh Ht Hu Hu0 Hut Hl Hc Hc0 Hct. unfold release_dates.
  rewrite Hh. simpl. rewrite (text_eqb_true _ _ Ht). simpl.
  rewrite Hu. simpl. rewrite Hu0. simpl. rewrite Hl. simpl.
  rewrite Hc. simpl. rewrite Hc0. simpl. rewrite Hut, Hct.
  unfold py_strptime.
  destruct (strptime ut "%Y-%m-%d"); simpl; [| reflexivity].
  destruct (strptime ct "%Y-%m-%d"); reflexivity.
Qed.

Lemma py_assert_ok (c : bool) (u : unit) : py_assert c = Ok u -> c = true.
Proof. destruct c; [reflexivity | discriminate]. Qed.

Lemma py_strptime_ok (s : option string) (f : string) (d : datetime) :
  py_strptime datetime strptime s f = Ok d ->
  exists t, s = Some t /\ strptime t f = Some d.
Proof.
  unfold py_strptime. destruct s as [t |]; [| discriminate].
  destruct (strptime t f) eqn:E; [| discriminate].
  intro H. injection H as ->. eauto.
Qed.

Lemma release_dates_inv (dl : list element) (ud cd : datetime) :
  release_dates dl = Ok (ud, cd) ->
  exists h u u0 l c c0 ut ct,
    cell dl 0 2 = Ok h /\ text h = Some "date" /\
    cell dl 1 2 = Ok u /\ child u 0 = Ok u0 /\ text u0 = Some ut /\
    item_last dl = Ok l /\ child l 2 = Ok c /\ child c 0 = Ok c0 /\
    text c0 = Some ct /\
    strptime ut "%Y-%m-%d" = Some ud /\ strptime ct "%Y-%m-%d" = Some cd.
Proof.
  unfold release_dates. intro H.
  apply bind_ok in H. destruct H as (h & Hh & H).
  apply bind_ok in H. destruct H as (x & Hx & H).
  apply py_assert_ok, text_eqb_inv in Hx.
  apply bind_ok in H. destruct H as (u & Hu & H).
  apply bind_ok in H. destruct H as (u0 & Hu0 & H).
  apply bind_ok in H. destruct H as (l & Hl & H).
  apply bind_ok in H. destruct H as (c & Hc & H).
  apply bind_ok in H. destruct H as (c0 & Hc0 & H).
  apply bind_ok in H. destruct H as (d1 & Hd1 & H).
  apply bind_ok in H. destruct H as (d2 & Hd2 & H).
  injection H as -> ->.
  apply py_strptime_ok in Hd1. destruct Hd1 as (ut & Hut & Hd1).
  apply py_strptime_ok in Hd2. destruct Hd2 as (ct & Hct & Hd2).
  exists h, u, u0, l, c, c0, ut, ct. repeat split; assumption.
Qed.

Lemma get_plugin_info_dates (script_id : Z) (html : detail_page)
  (f : Z * option string * element * element) :
  fetch_detail script_id = Ok html -> page_fields html = Ok f ->
  get_plugin_info script_id =
  bind (release_dates (download_trs html)) (fun dates =>
    Ok (PluginInfo (fst (fst (fst f))) (snd (fst (fst f)))
          (_get_innerhtml (snd (fst f))) (_get_innerhtml (snd f))
          (to_timestamp (fst dates)) (to_timestamp (snd dates)))).
Proof.
  intros Hf Hp. unfold get_plugin_info. rewrite Hf. simpl. rewrite Hp.
  simpl. destruct f as [[[rd cr] dn] inn]. simpl.
  destruct (release_dates (download_trs html)) as [[ud cd] | e];
    reflexivity.
Qed.

(** C8.  On a detail page whose earlier fields were read, let [dl] be
    the rows of the release-notes table.  The third cell of the first
    row must read [date], or the assertion fails before any date is
    read.  The text in the third cell of the second row and of the last
    row is then handed to [strptime] with the format [%Y-%m-%d]: when
    both match, [updated_at] comes from the second row and [created_at]
    from the last; when one does not match, the [ValueError] of
    [strptime] ends the fetch.  A fetch that returns went this way. *)
Theorem detail_dates (script_id : Z) (html : detail_page)
  (f : Z * option string * element * element) :
  fetch_detail script_id = Ok html -> page_fields html = Ok f ->
  let dl := download_trs html in
  (forall h, cell dl 0 2 = Ok h -> text h <> Some "date" ->
             get_plugin_info script_id = Raise AssertionError) /\
  (forall h u u0 l c c0 ut ct,
      cell dl 0 2 = Ok h -> text h = Some "date" ->
      cell dl 1 2 = Ok u -> child u 0 = Ok u0 -> text u0 = Some ut ->
      item_last dl = Ok l -> child l 2 = Ok c -> child c 0 = Ok c0 ->
      text c0 = Some ct ->
      match strptime ut "%Y-%m-%d", strptime ct "%Y-%m-%d" with
      | Some ud, Some cd =>
          exists info, get_plugin_info script_id = Ok info /\
                       updated_at info = to_timestamp ud /\
                       created_at info = to_timestamp cd
      | _, _ => get_plugin_info script_id = Raise ValueError
      end) /\
  (forall info, get_plugin_info script_id = Ok info ->
      exists h u u0 l c c0 ut ct ud cd,
        cell dl 0 2 = Ok h /\ text h = Some "date" /\
        cell dl 1 2 = Ok u /\ child u 0 = Ok u0 /\ text u0 = Some ut /\
        item_last dl = Ok l /\ child l 2 = Ok c /\ child c 0 = Ok c0 /\
        text c0 = Some ct /\
        strptime ut "%Y-%m-%d" = Some ud /\
        strptime ct "%Y-%m-%d" = Some cd /\
        updated_at info = to_timestamp ud /\
        created_at info = to_timestamp cd).
Proof.
  intros Hf Hp dl. rewrite (get_plugin_info_dates _ _ _ Hf Hp). fold dl.
  split; [| split].
  - intros h Hh Ht. now rewrite (release_dates_header _ _ Hh Ht).
  - intros h u u0 l c c0 ut ct Hh Ht Hu Hu0 Hut Hl Hc Hc0 Hct.
    rewrite (release_dates_parse _ _ _ _ _ _ _ _ _
               Hh Ht Hu Hu0 Hut Hl Hc Hc0 Hct).
    destruct (strptime ut "%Y-%m-%d") as [ud |]; [| reflexivity].
    destruct (strptime ct "%Y-%m-%d") as [cd |]; [| reflexivity].
    simpl. eexists. split; [reflexivity |]. split; reflexivity.
  - intros info H. apply bind_ok in H. destruct H as ([ud cd] & Hd & H).
    injection H as <-. simpl.
    destruct (release_dates_inv _ _ _ Hd)
      as (h & u & u0 & l & c & c0 & ut & ct & H).
    exists h, u, u0, l, c, c0, ut, ct, ud, cd.
    repeat match goal with
           | H : _ /\ _ |- _ => destruct H
           end.
    repeat split; assumption.
Qed.

End ScraperProperties.

(** ** The properties on the sample site *)

Lemma detail_failure_logged_and_skipped_witness :
  sample_run_rows [row2; row3] =
  Run (emitted (sample_run_rows [row3]))
      (LogEntry (Some "two") 2 RequestException
         :: logged (sample_run_rows [row3]))
      (aborted (sample_run_rows [row3])) /\
  (forall rows e',
      aborted (sample_run_rows rows) = Some e' ->
      exists r, In r rows /\
        (row_head r = Raise e' \/
         exists id extra, row_record r id extra = Raise e')).
Proof.
  apply (detail_failure_logged_and_skipped (Z * Z * Z) sample_strptime
           sample_to_timestamp sample_innerhtml site_detail
           row2 [row3] "script.php?script_id=2" 2%Z (Some "two")
           RequestException).
  - reflexivity.
  - reflexivity.
Defined.

(** C2, as stated, fails on a row whose link has no [script_id]: reading
    the identifier raises [AttributeError] outside the [try], nothing is
    logged, the iteration ends with that exception and the row after it,
    which alone would give a record, is never reached. *)
Lemma summary_failure_ends_the_iteration :
  sample_get_plugin_list (listing_table [row_no_id; row3]) 3 =
    Run [] [] (Some AttributeError) /\
  exists r, sample_get_plugin_list (listing_table [row3]) 3 = Run [r] [] None.
Proof.
  split; [reflexivity |]. eexists. reflexivity.
Qed.

Lemma one_failed_detail_fetch_witness :
  let out := sample_get_plugin_list (listing_table [row1; row2; row3]) 3 in
  length (emitted out) = length ([row1] ++ row2 :: [row3]) - 1 /\
  Forall2 sample_yields ([row1] ++ [row3]) (emitted out) /\
  logged out = [LogEntry (Some "two") 2 RequestException] /\
  aborted out = None.
Proof.
  apply (one_failed_detail_fetch (Z * Z * Z) sample_strptime
           sample_to_timestamp sample_innerhtml site_detail
           (site_listing (listing_table [row1; row2; row3]))
           3%Z (listing_table [row1; row2; row3]) [row1] [row3] row2
           "script.php?script_id=2" 2%Z (Some "two") RequestException).
  - reflexivity.
  - reflexivity.
  - constructor; [eexists; reflexivity |].
    constructor; [eexists; reflexivity | constructor].
  - reflexivity.
  - reflexivity.
Defined.

Lemma listing_rows_and_bound_witness :
  sample_get_plugin_list (listing_table [row1]) 1 =
    sample_run_rows (slice_2_m1 (listing_table [row1])) /\
  (forall a b z mid, listing_table [row1] = (a :: b :: mid ++ [z])%list ->
                     slice_2_m1 (listing_table [row1]) = mid) /\
  (length (listing_table [row1]) <= 3 ->
   slice_2_m1 (listing_table [row1]) = []) /\
  length (emitted (sample_get_plugin_list (listing_table [row1]) 1))
    <= length (listing_table [row1]) - 3.
Proof.
  apply (listing_rows_and_bound (Z * Z * Z) sample_strptime
           sample_to_timestamp sample_innerhtml site_detail
           (site_listing (listing_table [row1])) 1%Z (listing_table [row1])).
  reflexivity.
Defined.

(** C7, as stated, fails for [num = 1] when the table has the two header
    rows, one script and the footer: one record is yielded, which is more
    than [num - 3]. *)
Lemma more_than_num_minus_three :
  length (emitted (sample_get_plugin_list (listing_table [row1]) 1)) = 1 /\
  ~ (Z.of_nat
       (length (emitted (sample_get_plugin_list (listing_table [row1]) 1)))
     <= 1 - 3)%Z.
Proof.
  split; [reflexivity |]. vm_compute. intro H. apply H. reflexivity.
Qed.

Lemma detail_dates_witness :
  exists info,
    sample_get_plugin_info 1 = Ok info /\
    updated_at info = sample_to_timestamp (2013, 4, 1)%Z /\
    created_at info = sample_to_timestamp (2001, 2, 3)%Z.
Proof.
  destruct (detail_dates (Z * Z * Z) sample_strptime sample_to_timestamp
              sample_innerhtml site_detail 1%Z (sample_page sample_releases)
              (34%Z, Some "Bram",
               td (Some "line oneline two") [],
               td (Some "copy to ~/.vim") [])
              eq_refl eq_refl) as (_ & H & _).
  exact (H (Element "th" [] (Some "date") [] None)
           (td None [Element "i" [] (Some "2013-04-01") [] None])
           (Element "i" [] (Some "2013-04-01") [] None)
           (release_row (Some "2001-02-03"))
           (td None [Element "i" [] (Some "2001-02-03") [] None])
           (Element "i" [] (Some "2001-02-03") [] None)
           "2013-04-01" "2001-02-03"
           eq_refl eq_refl eq_refl eq_refl eq_refl
           eq_refl eq_refl eq_refl eq_refl).
Defined.

(** A date that [strptime] rejects ends the fetch with [ValueError], and
    the listing logs it. *)
Example rejected_date_is_a_value_error :
  get_plugin_info (Z * Z * Z) sample_strptime sample_to_timestamp
    sample_innerhtml
    (fun _ => Ok (sample_page [release_row (Some "2013-04-01");
                               release_row (Some "April 1st")])) 7
  = Raise ValueError.
Proof. reflexivity. Qed.

(** * Further properties of the cleaner *)

Lemma text_with_text_slot (node : element) :
  children node <> [] ->
  text (with_text_slot node) = Some (opt_str (text node)).
Proof.
  intro Hne. unfold with_text_slot.
  destruct (children node); [congruence |]. simpl.
  destruct (text node) as [[| c s] |] eqn:E; simpl; rewrite ?E; reflexivity.
Qed.

Lemma clean_loop_app (a b : list element) : forall w,
  clean_loop w (a ++ b) = bind (clean_loop w a) (fun w' => clean_loop w' b).
Proof.
  induction a as [| x a IH]; simpl; intro w; [reflexivity |].
  destruct (clean_step w x) as [w1 | e]; simpl; [apply IH | reflexivity].
Qed.

(** X1.  A node whose children are all [<br>] or anchors of a known kind is
    cleaned to a node without children whose text is the text it had
    followed, in document order, by what each child leaves: the tail of a
    [<br>], the text and tail of a citation, nothing for a [vimtip] anchor
    (its tail goes with it). *)
Theorem clean_flat_children (node : element) :
  children node <> [] -> forallb flat_child (children node) = true ->
  exists node',
    _clean_text_node node = Ok node' /\
    children node' = [] /\
    text node' = Some (opt_str (text node) ++ pieces (children node)).
Proof.
  intros Hne Hflat. rewrite clean_text_node_unfold.
  rewrite (text_with_text_slot _ Hne), (clean_loop_flat _ _ Hflat).
  simpl. eexists. repeat split.
Qed.

Lemma clean_flat_children_witness :
  exists node',
    _clean_text_node
      (td (Some "see ") [anchor "http://x" (Some "http://x") (Some " and ");
                         anchor "t.php" (Some "vimtip #3") (Some " (old)");
                         br (Some "vimscript docs")]) = Ok node' /\
    children node' = [] /\
    text node' = Some ("see " ++ "http://x and vimscript docs").
Proof.
  apply (clean_flat_children
           (td (Some "see ")
               [anchor "http://x" (Some "http://x") (Some " and ");
                anchor "t.php" (Some "vimtip #3") (Some " (old)");
                br (Some "vimscript docs")]));
    [discriminate | reflexivity].
Defined.

(** The loop up to an element that makes the body raise: flat children
    before it, anything after it. *)
Lemma clean_raises_after_flat (node : element) (pre post : list element)
  (a : element) (e : exn) :
  children node = (pre ++ a :: post)%list ->
  forallb flat_child pre = true ->
  (forall t, clean_step (Walk (Some t) []) a = Raise e) ->
  _clean_text_node node = Raise e.
Proof.
  intros Hch Hflat Hstep. rewrite clean_text_node_unfold.
  rewrite text_with_text_slot by (rewrite Hch; now destruct pre).
  rewrite Hch, clean_loop_app, (clean_loop_flat _ _ Hflat). simpl.
  now rewrite Hstep.
Qed.

(** X3.  An anchor of no known kind (its text is not its [href] and mentions
    neither [vimscript] nor [vimtip]) ends the cleaning with the
    exception whose message names the [href] and the text, when only
    [<br>] and known anchors come before it. *)
Theorem clean_unknown_anchor (node : element) (pre post : list element)
  (a : element) (h t : string) :
  children node = (pre ++ a :: post)%list ->
  forallb flat_child pre = true ->
  tag a = "a" -> assoc "href" (attrib a) = Some h -> text a = Some t ->
  str_eqb t h = false -> contains "vimscript" t = false ->
  contains "vimtip" t = false ->
  _clean_text_node node =
  Raise (Exception ("Weird link to " ++ h ++ " with text " ++ t)).
Proof.
  intros Hch Hflat Htag Hh Ht H1 H2 H3.
  apply (clean_raises_after_flat node pre post a); auto.
  intro t0. rewrite (anchor_step_cases _ _ _ _ Htag Hh Ht), H1, H2, H3.
  reflexivity.
Qed.

Lemma clean_unknown_anchor_witness :
  _clean_text_node
    (td (Some "see ") [br (Some "also "); anchor "Y" (Some "random text") None])
  = Raise (Exception ("Weird link to " ++ "Y" ++ " with text " ++ "random text")).
Proof.
  apply (clean_unknown_anchor _ [br (Some "also ")] []
           (anchor "Y" (Some "random text") None)); reflexivity.
Defined.

(** X4.  An anchor without [href] ends the cleaning with [KeyError], whatever
    its text, when only [<br>] and known anchors come before it. *)
Theorem clean_anchor_without_href (node : element) (pre post : list element)
  (a : element) :
  children node = (pre ++ a :: post)%list ->
  forallb flat_child pre = true ->
  tag a = "a" -> assoc "href" (attrib a) = None ->
  _clean_text_node node = Raise (KeyError "href").
Proof.
  intros Hch Hflat Htag Hh.
  apply (clean_raises_after_flat node pre post a); auto.
  intro t0. unfold clean_step. rewrite Htag. simpl.
  unfold py_or, text_is_href, attrib_get. rewrite Hh. reflexivity.
Qed.

Lemma clean_anchor_without_href_witness :
  _clean_text_node
    (td None [Element "a" [("name", "top")] (Some "vimscript #1") [] None])
  = Raise (KeyError "href").
Proof.
  apply (clean_anchor_without_href _ [] []
           (Element "a" [("name", "top")] (Some "vimscript #1") [] None));
    reflexivity.
Defined.

(** *** What the loop does to the parent's text *)

Lemma prev_tail_iadd_ptext (w w' : walk) (s : option string) :
  prev_tail_iadd w s = Ok w' -> ptext w' = ptext w.
Proof.
  unfold prev_tail_iadd. destruct (prevs w); [discriminate |].
  intro H. bind_inv H. injection H as <-. reflexivity.
Qed.

Lemma extends_refl (t : string) : extends (Some t) (Some t).
Proof. exists t, "". now rewrite string_app_nil_r. Qed.

Lemma extends_trans (a b c : option string) :
  extends a b -> extends b c -> extends a c.
Proof.
  intros (t & s & -> & ->) (t' & s' & E & ->). injection E as <-.
  exists t, (s ++ s'). now rewrite string_app_assoc.
Qed.

Lemma parent_text_iadd_extends (w w' : walk) (s : option string) :
  parent_text_iadd w s = Ok w' -> extends (ptext w) (ptext w').
Proof.
  unfold parent_text_iadd, py_add.
  destruct (ptext w) as [t |]; [| discriminate].
  destruct s as [x |]; [| discriminate].
  simpl. intro H. injection H as <-. exists t, x. auto.
Qed.

Lemma when_extends (c : bool) (w w' : walk) (body : walk -> result walk)
  (t : string) :
  ptext w = Some t ->
  (forall u u', body u = Ok u' -> ptext u = Some t ->
                extends (ptext u) (ptext u')) ->
  when c w body = Ok w' -> extends (ptext w) (ptext w').
Proof.
  intros Ht Hb. unfold when. destruct c.
  - intro H. now apply Hb.
  - intro H. injection H as <-. rewrite Ht. apply extends_refl.
Qed.

Lemma clean_step_extends (w w' : walk) (elem : element) (t : string) :
  ptext w = Some t -> clean_step w elem = Ok w' ->
  extends (ptext w) (ptext w').
Proof.
  intros Ht. unfold clean_step.
  destruct (str_eqb (tag elem) "br").
  - apply (when_extends _ _ _ _ t Ht). intros u u' Hu Hut.
    destruct (elem_truthy (getprevious u)).
    + apply prev_tail_iadd_ptext in Hu. rewrite Hu, Hut. apply extends_refl.
    + now apply parent_text_iadd_extends in Hu.
  - destruct (str_eqb (tag elem) "a").
    + intro H. bind_inv H. destruct a.
      * destruct (elem_truthy (getprevious w)); bind_inv H.
        -- apply prev_tail_iadd_ptext in Ha0. rewrite <- Ha0.
           assert (Ht0 : ptext a = Some t) by congruence.
           revert H. apply (when_extends _ _ _ _ t Ht0). intros u u' Hu Hut.
           apply prev_tail_iadd_ptext in Hu. rewrite Hu, Hut.
           apply extends_refl.
        -- apply parent_text_iadd_extends in Ha0.
           destruct Ha0 as (t1 & s1 & E1 & E2).
           apply extends_trans with (b := ptext a).
           ++ exists t1, s1. auto.
           ++ revert H. apply (when_extends _ _ _ _ (t1 ++ s1) E2).
              intros u u' Hu _. now apply parent_text_iadd_extends in Hu.
      * bind_inv H. destruct a.
        -- injection H as <-. rewrite Ht. apply extends_refl.
        -- bind_inv H. discriminate.
    + intro H. injection H as <-. simpl. rewrite Ht. apply extends_refl.
Qed.

Lemma clean_loop_extends (todo : list element) : forall (w w' : walk) t,
  ptext w = Some t -> clean_loop w todo = Ok w' ->
  extends (ptext w) (ptext w').
Proof.
  induction todo as [| elem rest IH]; simpl; intros w w' t Ht H.
  - injection H as <-. rewrite Ht. apply extends_refl.
  - bind_inv H. pose proof (clean_step_extends _ _ _ _ Ht Ha) as E.
    apply extends_trans with (b := ptext a); [exact E |].
    destruct E as (t1 & s1 & _ & E2). now apply (IH _ _ _ E2).
Qed.

(** X5.  The cleaner writes to the node's text and children only: the tag, the
    attributes and the tail of the node stay, and the text it had is
    still there, at the head of the new text. *)
Theorem clean_keeps_node_and_leading_text (node node' : element) :
  _clean_text_node node = Ok node' ->
  tag node' = tag node /\ attrib node' = attrib node /\
  tail node' = tail node /\
  exists s, opt_str (text node') = opt_str (text node) ++ s.
Proof.
  rewrite clean_text_node_unfold. intro H. bind_inv H. injection H as <-.
  assert (Hsame : tag (with_text_slot node) = tag node /\
                  attrib (with_text_slot node) = attrib node /\
                  tail (with_text_slot node) = tail node).
  { unfold with_text_slot.
    destruct ((0 <? length (children node))%nat && negb (truthy (text node)));
      repeat split. }
  simpl. destruct Hsame as (-> & -> & ->). repeat split.
  destruct (children node) as [| c cs] eqn:Hc.
  - simpl in Ha. injection Ha as <-. simpl.
    rewrite opt_str_with_text_slot. exists "". now rewrite string_app_nil_r.
  - assert (Ht : text (with_text_slot node) = Some (opt_str (text node))).
    { apply text_with_text_slot. rewrite Hc. discriminate. }
    rewrite Ht in Ha.
    destruct (clean_loop_extends _ (Walk (Some (opt_str (text node))) []) a
                (opt_str (text node)) eq_refl Ha) as (t & s & E1 & E2).
    simpl in E1. injection E1 as <-. rewrite E2. exists s. reflexivity.
Qed.

Lemma clean_keeps_node_and_leading_text_witness :
  tag (td (Some "abuc") []) = tag frag_runs /\
  attrib (td (Some "abuc") []) = attrib frag_runs /\
  tail (td (Some "abuc") []) = tail frag_runs /\
  exists s, opt_str (text (td (Some "abuc") [])) =
            opt_str (text frag_runs) ++ s.
Proof.
  apply (clean_keeps_node_and_leading_text frag_runs). reflexivity.
Defined.

(** *** Cleaning twice *)

Lemma removable_shape (c c0 : element) :
  shape c0 = shape c -> removable c = removable c0.
Proof.
  unfold shape, removable. intro H.
  assert (Ht : tag c0 = tag c) by congruence. now rewrite Ht.
Qed.

Lemma clean_children_not_removable (node node' : element) :
  _clean_text_node node = Ok node' ->
  forall c, In c (children node') -> removable c = false.
Proof.
  intros H c Hc. pose proof (clean_children_shape _ _ H) as Hs.
  assert (Hin : In (shape c) (map shape (kept (children node)))).
  { rewrite <- Hs. now apply in_map. }
  apply in_map_iff in Hin. destruct Hin as (c0 & Heq & Hin0).
  unfold kept in Hin0. apply filter_In in Hin0. destruct Hin0 as [_ Hr].
  apply negb_true_iff in Hr. now rewrite (removable_shape _ _ Heq).
Qed.

Lemma with_text_slot_fixed (e : element) :
  (children e = [] \/ exists t, text e = Some t) -> with_text_slot e = e.
Proof.
  unfold with_text_slot. intros [Hc | [t Ht]].
  - now rewrite Hc.
  - destruct (0 <? length (children e))%nat; [| reflexivity]. simpl.
    rewrite Ht. destruct t as [| c s]; simpl; [| reflexivity].
    destruct e; simpl in *. now subst.
Qed.

(** X6.  A node the cleaner has returned is left as it is by a second call. *)
Theorem clean_idempotent (node node' : element) :
  _clean_text_node node = Ok node' -> _clean_text_node node' = Ok node'.
Proof.
  intro H. pose proof (clean_children_not_removable _ _ H) as Hk.
  assert (Hslot : with_text_slot node' = node').
  { apply with_text_slot_fixed.
    rewrite clean_text_node_unfold in H. bind_inv H. injection H as <-.
    simpl. destruct (children node) as [| c cs] eqn:Hc.
    - simpl in Ha. injection Ha as <-. left. reflexivity.
    - right.
      assert (Ht : text (with_text_slot node) = Some (opt_str (text node))).
      { apply text_with_text_slot. rewrite Hc. discriminate. }
      rewrite Ht in Ha.
      destruct (clean_loop_extends _ (Walk (Some (opt_str (text node))) []) a
                  (opt_str (text node)) eq_refl Ha) as (t & s & _ & E2).
      eauto. }
  rewrite clean_text_node_unfold, Hslot, clean_loop_keep by exact Hk.
  simpl. rewrite app_nil_r, rev_involutive. destruct node'; reflexivity.
Qed.

Lemma clean_idempotent_witness :
  _clean_text_node (td (Some "py") [leaf "hr" (Some "x")]) =
  Ok (td (Some "py") [leaf "hr" (Some "x")]).
Proof.
  apply (clean_idempotent frag_br_after_hr). reflexivity.
Defined.

(** *** Fragments of text, line breaks and citations *)

Lemma text_content_unfold (e : element) :
  text_content e = opt_str (text e) ++ children_text (children e).
Proof.
  destruct e as [tg at_ tx cs tl]. simpl. f_equal.
Qed.

Lemma plain_child_flat (e : element) :
  plain_child e = true -> flat_child e = true.
Proof.
  unfold plain_child, flat_child. destruct (children e); [| discriminate].
  destruct (str_eqb (tag e) "br"); simpl; [reflexivity |].
  destruct (str_eqb (tag e) "a"); simpl; [| discriminate].
  intros ->. reflexivity.
Qed.

Lemma plain_child_piece (e : element) :
  plain_child e = true -> piece e = text_content e ++ opt_str (tail e).
Proof.
  unfold plain_child, piece. rewrite text_content_unfold.
  destruct (children e); [| discriminate]. simpl.
  destruct (str_eqb (tag e) "br") eqn:E; simpl.
  - apply String.eqb_eq in E. rewrite E. simpl.
    destruct (text e); [discriminate | reflexivity].
  - destruct (str_eqb (tag e) "a"); simpl; [| discriminate].
    intros ->. now rewrite string_app_nil_r.
Qed.

Lemma pieces_plain (l : list element) :
  forallb plain_child l = true -> pieces l = children_text l.
Proof.
  induction l as [| e l IH]; simpl; [reflexivity |]. intro H.
  apply andb_true_iff in H. destruct H as [He Hl].
  rewrite (plain_child_piece _ He), (IH Hl). now rewrite string_app_assoc.
Qed.

Lemma forallb_plain_flat (l : list element) :
  forallb plain_child l = true -> forallb flat_child l = true.
Proof.
  induction l as [| e l IH]; simpl; [reflexivity |]. intro H.
  apply andb_true_iff in H. destruct H as [He Hl].
  now rewrite (plain_child_flat _ He), (IH Hl).
Qed.

(** X2.  A node whose children are empty [<br>]s and citation anchors without
    child elements is cleaned to text alone, and its text content is what
    it was: a line break joins the text around it, a citation is replaced
    by its text. *)
Theorem clean_plain_fragment (node : element) :
  forallb plain_child (children node) = true ->
  exists node',
    _clean_text_node node = Ok node' /\
    children node' = [] /\
    text_content node' = text_content node.
Proof.
  intro H. destruct (children node) as [| c cs] eqn:Hc.
  - exists node. rewrite clean_text_node_unfold, Hc. simpl.
    unfold with_text_slot. rewrite Hc. simpl. repeat split; auto.
    destruct node; simpl in *. now subst.
  - rewrite <- Hc in H.
    assert (Hne : children node <> []) by (rewrite Hc; discriminate).
    rewrite clean_text_node_unfold, (text_with_text_slot _ Hne).
    rewrite (clean_loop_flat _ _ (forallb_plain_flat _ H)). simpl.
    eexists. split; [reflexivity |]. split; [reflexivity |].
    rewrite !text_content_unfold. simpl.
    now rewrite (pieces_plain _ H), string_app_nil_r.
Qed.

Lemma clean_plain_fragment_witness :
  exists node',
    _clean_text_node frag_runs = Ok node' /\
    children node' = [] /\
    text_content node' = text_content frag_runs.
Proof.
  apply (clean_plain_fragment frag_runs). reflexivity.
Defined.

(** * Serialisation *)

Lemma has_gt_app_gt (x t : string) : has_gt (x ++ String gt t) = true.
Proof.
  induction x as [| c x IH]; simpl; [reflexivity |].
  rewrite IH. apply orb_true_r.
Qed.

Lemma sub_trailing_text_no_gt (t : string) :
  has_gt t = false -> sub_trailing_text t = "".
Proof.
  destruct t; cbn [sub_trailing_text]; intro H; [reflexivity |].
  now rewrite H.
Qed.

Lemma sub_trailing_text_cut (x t : string) :
  has_gt t = false ->
  sub_trailing_text (x ++ String gt t) = x ++ String gt "".
Proof.
  intro Ht. induction x as [| c x IH].
  - simpl. now rewrite (sub_trailing_text_no_gt _ Ht).
  - change (String c x ++ String gt t) with (String c (x ++ String gt t)).
    cbn [sub_trailing_text has_gt]. rewrite has_gt_app_gt, orb_true_r.
    now rewrite IH.
Qed.

(** X7.  [_get_outerhtml] cuts the serialisation behind its last [>]: the text
    that trails the node's end tag is dropped and the rest kept. *)
Theorem outerhtml_drops_trailing_text (tostring : element -> string)
  (node : element) (x t : string) :
  tostring node = x ++ String gt t -> has_gt t = false ->
  _get_outerhtml tostring node = x ++ String gt "".
Proof.
  intros Hs Ht. unfold _get_outerhtml. rewrite Hs.
  now apply sub_trailing_text_cut.
Qed.


Lemma outerhtml_drops_trailing_text_witness :
  _get_outerhtml (fun _ => "<td>a<b>x</b></td> and more") frag_plain =
  "<td>a<b>x</b></td" ++ String gt "".
Proof.
  apply (outerhtml_drops_trailing_text _ frag_plain
           "<td>a<b>x</b></td" " and more"); reflexivity.
Defined.

Lemma sub_trailing_text_shape (s : string) :
  exists t, s = sub_trailing_text s ++ t /\ has_gt t = false /\
            (sub_trailing_text s = "" \/
             exists x, sub_trailing_text s = x ++ String gt "").
Proof.
  induction s as [| c s IH].
  - exists "". repeat split. now left.
  - cbn [sub_trailing_text].
    destruct (has_gt (String c s)) eqn:E.
    + destruct IH as (t & Hs & Ht & Hshape). exists t.
      split; [simpl; now rewrite <- Hs |]. split; [exact Ht |]. right.
      destruct Hshape as [Hnil | [x Hx]].
      * rewrite Hnil. exists "". simpl. f_equal.
        simpl in E. rewrite Hnil in Hs. simpl in Hs. subst t.
        rewrite Ht, orb_false_r in E. now apply Ascii.eqb_eq in E.
      * exists (String c x). simpl. now rewrite Hx.
    + exists (String c s). repeat split; auto.
Qed.

(** X8.  Whatever the serialisation is, [_get_outerhtml] returns a prefix of
    it that is empty or ends with [>], and what it drops holds no [>]. *)
Theorem outerhtml_shape (tostring : element -> string) (node : element) :
  exists t,
    tostring node = _get_outerhtml tostring node ++ t /\
    has_gt t = false /\
    (_get_outerhtml tostring node = "" \/
     exists x, _get_outerhtml tostring node = x ++ String gt "").
Proof. unfold _get_outerhtml. apply sub_trailing_text_shape. Qed.

Lemma skip_to_gt_no_angle (o rest : string) :
  no_angle o = true -> skip_to_gt (o ++ String gt rest) = Some rest.
Proof.
  induction o as [| c o IH]; simpl; [reflexivity |]. intro H.
  apply andb_true_iff in H. destruct H as [H Ho].
  apply andb_true_iff in H. destruct H as [Hl Hg].
  apply negb_true_iff in Hl, Hg. now rewrite Hg, Hl, IH.
Qed.

Lemma sub_open_tag_cut (o rest : string) :
  no_angle o = true ->
  sub_open_tag (String lt (o ++ String gt rest)) = rest.
Proof.
  intro H. unfold sub_open_tag, match_tag. simpl.
  now rewrite (skip_to_gt_no_angle _ _ H).
Qed.

Lemma at_end_long (a b : ascii) (s : string) :
  at_end (String a (String b s)) = false.
Proof. reflexivity. Qed.

Lemma at_end_before_tag (b c : string) :
  at_end (b ++ String lt (c ++ String gt "")) = false.
Proof.
  destruct b as [| x b]; simpl.
  - destruct c; reflexivity.
  - destruct b; reflexivity.
Qed.

Lemma skip_to_gt_before_tag (b c r : string) :
  skip_to_gt (b ++ String lt (c ++ String gt "")) = Some r ->
  at_end r = false.
Proof.
  induction b as [| x b IH]; simpl.
  - discriminate.
  - destruct (Ascii.eqb x gt).
    + intro H. injection H as <-. apply at_end_before_tag.
    + destruct (Ascii.eqb x lt); [discriminate | exact IH].
Qed.

Lemma sub_close_tag_cut (body c : string) :
  no_angle c = true ->
  sub_close_tag (body ++ String lt (c ++ String gt "")) = body.
Proof.
  intro Hc. induction body as [| x body IH].
  - simpl. unfold match_last_tag, match_tag. simpl.
    now rewrite (skip_to_gt_no_angle _ _ Hc).
  - change (String x body ++ String lt (c ++ String gt ""))
      with (String x (body ++ String lt (c ++ String gt ""))).
    cbn [sub_close_tag].
    replace (match_last_tag (String x (body ++ String lt (c ++ String gt ""))))
      with (@None string); [now rewrite IH |].
    unfold match_last_tag, match_tag.
    destruct (Ascii.eqb x lt); [| reflexivity].
    destruct (skip_to_gt (body ++ String lt (c ++ String gt ""))) as [r |] eqn:E;
      [| reflexivity].
    now rewrite (skip_to_gt_before_tag _ _ _ E).
Qed.

(** X9.  When the serialisation of a node reads [<open>body<close>trail], with
    no angle bracket inside the two tags and no [>] in the trailing text,
    [_get_innerhtml] is [body], whatever [body] holds. *)
Theorem innerhtml_is_the_body (tostring : element -> string) (node : element)
  (o body c t : string) :
  tostring node =
    String lt (o ++ String gt (body ++ String lt (c ++ String gt t))) ->
  no_angle o = true -> no_angle c = true -> has_gt t = false ->
  _get_innerhtml tostring node = body.
Proof.
  intros Hs Ho Hc Ht. unfold _get_innerhtml, _get_outerhtml. rewrite Hs.
  replace (String lt (o ++ String gt (body ++ String lt (c ++ String gt t))))
    with (String lt (o ++ String gt (body ++ String lt c)) ++ String gt t)
    by (simpl; now rewrite !string_app_assoc; simpl; rewrite string_app_assoc).
  rewrite (sub_trailing_text_cut _ _ Ht).
  replace (String lt (o ++ String gt (body ++ String lt c)) ++ String gt "")
    with (String lt (o ++ String gt (body ++ String lt (c ++ String gt ""))))
    by (simpl; now rewrite !string_app_assoc; simpl; rewrite string_app_assoc).
  rewrite (sub_open_tag_cut _ _ Ho). now apply sub_close_tag_cut.
Qed.

Lemma innerhtml_is_the_body_witness :
  _get_innerhtml (fun _ => "<td class=x>a<b>x</b> > y</td> tail") frag_plain
  = "a<b>x</b> > y".
Proof.
  apply (innerhtml_is_the_body _ frag_plain "td class=x" "a<b>x</b> > y"
           "/td" " tail"); reflexivity.
Defined.

(** X10.  A node serialised as one tag and nothing else but trailing text, as
    an element without content and end tag is, has an empty inner
    markup. *)
Theorem innerhtml_of_a_single_tag (tostring : element -> string)
  (node : element) (o t : string) :
  tostring node = String lt (o ++ String gt t) ->
  no_angle o = true -> has_gt t = false ->
  _get_innerhtml tostring node = "".
Proof.
  intros Hs Ho Ht. unfold _get_innerhtml, _get_outerhtml. rewrite Hs.
  change (String lt (o ++ String gt t)) with (String lt o ++ String gt t).
  rewrite (sub_trailing_text_cut _ _ Ht).
  change (String lt o ++ String gt "") with (String lt (o ++ String gt "")).
  now rewrite (sub_open_tag_cut _ _ Ho).
Qed.

Lemma innerhtml_of_a_single_tag_witness :
  _get_innerhtml (fun _ => "<br>line two") (br (Some "line two")) = "".
Proof.
  apply (innerhtml_of_a_single_tag _ (br (Some "line two")) "br" "line two");
    reflexivity.
Defined.

(** * Identifiers and URLs *)

Lemma digits_value_uint (d : Decimal.uint) : forall d',
  digits_value (Z.of_N (DecimalPos.Unsigned.of_lu d'))
    (DecimalString.NilEmpty.string_of_uint d) =
  Z.of_N (DecimalPos.Unsigned.of_lu (Decimal.revapp d d')).
Proof.
  induction d; intro d'; cbn [DecimalString.NilEmpty.string_of_uint
                              digits_value Decimal.revapp];
    try reflexivity;
    rewrite <- IHd; f_equal; cbn [DecimalPos.Unsigned.of_lu];
    rewrite ?N2Z.inj_add, N2Z.inj_mul;
    generalize (Z.of_N (DecimalPos.Unsigned.of_lu d')); intro z;
    cbv - [Z.add Z.mul]; lia.
Qed.

Lemma take_digits_uint (d : Decimal.uint) (rest : string) :
  no_digit_ahead rest = true ->
  take_digits (DecimalString.NilEmpty.string_of_uint d ++ rest) =
  (DecimalString.NilEmpty.string_of_uint d, rest).
Proof.
  intro Hr.
  induction d; cbn [DecimalString.NilEmpty.string_of_uint append take_digits];
    try (change (is_digit _) with true; cbv iota; now rewrite IHd).
  destruct rest as [| c r]; simpl in *; [reflexivity |].
  apply negb_true_iff in Hr. now rewrite Hr.
Qed.

Lemma string_of_uint_nonnil (d : Decimal.uint) :
  d <> Decimal.Nil -> DecimalString.NilEmpty.string_of_uint d <> "".
Proof. destruct d; simpl; congruence. Qed.

Lemma to_int_nonneg (n : Z) :
  (0 <= n)%Z ->
  exists d, Z.to_int n = Decimal.Pos d /\ d <> Decimal.Nil /\ Z.of_uint d = n.
Proof.
  intro H. pose proof (DecimalZ.of_to n) as E. destruct n as [| p | p].
  - exists Decimal.zero. repeat split. discriminate.
  - exists (Pos.to_uint p). repeat split; auto.
    apply DecimalPos.Unsigned.to_uint_nonnil.
  - lia.
Qed.

Lemma py_fmt_d_value (n : Z) :
  (0 <= n)%Z -> digits_value 0 (py_fmt_d n) = n.
Proof.
  intro H. destruct (to_int_nonneg n H) as (d & Hd & _ & Hv).
  unfold py_fmt_d. rewrite Hd. simpl.
  change 0%Z with (Z.of_N (DecimalPos.Unsigned.of_lu Decimal.Nil)).
  rewrite digits_value_uint. rewrite <- Hv. unfold Z.of_uint.
  now rewrite DecimalPos.Unsigned.of_uint_alt.
Qed.

Lemma py_fmt_d_digits (n : Z) (rest : string) :
  (0 <= n)%Z -> no_digit_ahead rest = true ->
  digits1 (py_fmt_d n ++ rest) = Some (py_fmt_d n, rest).
Proof.
  intros H Hr. destruct (to_int_nonneg n H) as (d & Hd & Hnil & _).
  unfold py_fmt_d, digits1. rewrite Hd. simpl.
  rewrite (take_digits_uint _ _ Hr).
  pose proof (string_of_uint_nonnil d Hnil).
  destruct (DecimalString.NilEmpty.string_of_uint d); [congruence | reflexivity].
Qed.

Lemma search_script_id (n : Z) (rest : string) :
  (0 <= n)%Z -> no_digit_ahead rest = true ->
  re_search match_script_id ("script.php?script_id=" ++ py_fmt_d n ++ rest) =
  Some (py_fmt_d n).
Proof.
  intros H Hr. pose proof (py_fmt_d_digits n rest H Hr) as E.
  remember (py_fmt_d n ++ rest) as s. remember (py_fmt_d n) as p.
  unfold match_script_id. simpl. now rewrite E.
Qed.

(** X11.  A listing link [script.php?script_id=<n>] (with anything but a digit
    after the number) gives the row the identifier [n], for every
    [n >= 0], and the [vimorg_url] of the record is the address
    [get_plugin_info] requests for [n], followed by what followed the
    number. *)
Theorem listing_link_round_trip (row c a : element) (n : Z) (rest : string)
  (extra : plugin_info) :
  (0 <= n)%Z -> no_digit_ahead rest = true ->
  child row 0 = Ok c -> child c 0 = Ok a ->
  assoc "href" (attrib a) =
    Some ("script.php?script_id=" ++ py_fmt_d n ++ rest) ->
  row_head row =
    Ok ("script.php?script_id=" ++ py_fmt_d n ++ rest, n, text a) /\
  forall r, row_record row n extra = Ok r ->
            vimorg_url r = detail_url n ++ rest /\
            vim_script_id r = n /\ info r = extra.
Proof.
  intros Hn Hr Hc Ha Hh. split.
  - unfold row_head, attrib_get. rewrite Hc. cbn [bind]. rewrite Ha.
    cbn [bind]. rewrite Hh. cbn [bind].
    rewrite (search_script_id n rest Hn Hr). cbn [group bind].
    now rewrite (py_fmt_d_value n Hn).
  - intros r H. unfold row_record, attrib_get in H. rewrite Hc in H.
    cbn [bind] in H. rewrite Ha in H. cbn [bind] in H. rewrite Hh in H.
    cbn [bind] in H.
    bind_inv H. bind_inv H. bind_inv H. bind_inv H. injection H as <-.
    cbn [vimorg_url vim_script_id info]. repeat split.
Qed.

Lemma listing_link_round_trip_witness :
  row_head (listing_row ("script.php?script_id=" ++ py_fmt_d 4325 ++ "&x=1")
              "vimcat" "3" "7") =
    Ok ("script.php?script_id=" ++ py_fmt_d 4325 ++ "&x=1", 4325%Z,
        Some "vimcat") /\
  forall r,
    row_record (listing_row ("script.php?script_id=" ++ py_fmt_d 4325 ++ "&x=1")
                  "vimcat" "3" "7") 4325
      (PluginInfo 1 None "" "" 0 0) = Ok r ->
    vimorg_url r = detail_url 4325 ++ "&x=1" /\
    vim_script_id r = 4325%Z /\ info r = PluginInfo 1 None "" "" 0 0.
Proof.
  apply (listing_link_round_trip _
           (td None [Element "a"
                       [("href", "script.php?script_id=" ++ py_fmt_d 4325 ++ "&x=1")]
                       (Some "vimcat") [] None])
           (Element "a"
              [("href", "script.php?script_id=" ++ py_fmt_d 4325 ++ "&x=1")]
              (Some "vimcat") [] None)
           4325%Z "&x=1"); try reflexivity. lia.
Defined.

Lemma digits_value_nonneg (s : string) : forall acc,
  (0 <= acc)%Z -> (0 <= digits_value acc s)%Z.
Proof.
  induction s as [| c s IH]; cbn [digits_value]; intros acc H; [exact H |].
  apply IH. lia.
Qed.

(** * The detail page *)

Lemma group_ok {A : Type} (m : option A) (g : A) :
  group m = Ok g -> m = Some g.
Proof. destruct m; simpl; congruence. Qed.

Lemma page_fields_steps (html : detail_page) (rd : Z) (cr : option string)
  (dn inn : element) :
  page_fields html = Ok (rd, cr, dn, inn) ->
  exists b g c0 c1 a c6 d c9 i,
    item (rating_b html) 0 = Ok b /\
    py_re_search match_fraction (text b) = Ok (Some g) /\
    rd = digits_value 0 (snd g) /\
    cell (body_trs html) 0 0 = Ok c0 /\ text c0 = Some "created by" /\
    cell (body_trs html) 1 0 = Ok c1 /\ child c1 0 = Ok a /\ cr = text a /\
    cell (body_trs html) 6 0 = Ok c6 /\ text c6 = Some "description" /\
    cell (body_trs html) 7 0 = Ok d /\ _clean_text_node d = Ok dn /\
    cell (body_trs html) 9 0 = Ok c9 /\ text c9 = Some "install details" /\
    cell (body_trs html) 10 0 = Ok i /\ _clean_text_node i = Ok inn.
Proof.
  unfold page_fields. intro H.
  apply bind_ok in H. destruct H as (b & Hb & H).
  apply bind_ok in H. destruct H as (m & Hm & H).
  apply bind_ok in H. destruct H as (g & Hg & H).
  apply group_ok in Hg. subst m.
  apply bind_ok in H. destruct H as (c0 & Hc0 & H).
  apply bind_ok in H. destruct H as (u0 & Ha0 & H).
  apply py_assert_ok, text_eqb_inv in Ha0.
  apply bind_ok in H. destruct H as (c1 & Hc1 & H).
  apply bind_ok in H. destruct H as (a & Ha & H).
  apply bind_ok in H. destruct H as (c6 & Hc6 & H).
  apply bind_ok in H. destruct H as (u6 & Ha6 & H).
  apply py_assert_ok, text_eqb_inv in Ha6.
  apply bind_ok in H. destruct H as (d & Hd & H).
  apply bind_ok in H. destruct H as (d' & Hd' & H).
  apply bind_ok in H. destruct H as (c9 & Hc9 & H).
  apply bind_ok in H. destruct H as (u9 & Ha9 & H).
  apply py_assert_ok, text_eqb_inv in Ha9.
  apply bind_ok in H. destruct H as (i & Hi & H).
  apply bind_ok in H. destruct H as (i' & Hi' & H).
  injection H as <- <- <- <-.
  exists b, g, c0, c1, a, c6, d, c9, i. repeat split; assumption.
Qed.

Lemma cell_length (l : list element) (i j : nat) (c : element) :
  cell l i j = Ok c -> i < length l.
Proof.
  unfold cell, item. destruct (nth_error l i) eqn:E; [| discriminate].
  intros _. apply nth_error_Some. congruence.
Qed.

(** X12.  A detail page is accepted only with the layout the code relies on: a
    rating node, at least eleven body rows, the labels [created by],
    [description] and [install details] in the first cell of rows 0, 6
    and 9.  The author is the text of the first child of row 1's first
    cell; the two nodes returned are the first cells of rows 7 and 10,
    cleaned; and the number of raters is not negative. *)
Theorem accepted_page_layout (html : detail_page) (rd : Z)
  (cr : option string) (dn inn : element) :
  page_fields html = Ok (rd, cr, dn, inn) ->
  rating_b html <> [] /\ 11 <= length (body_trs html) /\
  (exists c, cell (body_trs html) 0 0 = Ok c /\ text c = Some "created by") /\
  (exists c, cell (body_trs html) 6 0 = Ok c /\ text c = Some "description") /\
  (exists c, cell (body_trs html) 9 0 = Ok c /\
             text c = Some "install details") /\
  (exists c a, cell (body_trs html) 1 0 = Ok c /\ child c 0 = Ok a /\
               cr = text a) /\
  (exists d, cell (body_trs html) 7 0 = Ok d /\ _clean_text_node d = Ok dn) /\
  (exists i, cell (body_trs html) 10 0 = Ok i /\
             _clean_text_node i = Ok inn) /\
  (0 <= rd)%Z.
Proof.
  intro H. apply page_fields_steps in H.
  destruct H as (b & g & c0 & c1 & a & c6 & d & c9 & i & H).
  repeat match goal with
         | H : _ /\ _ |- _ => destruct H
         end.
  split; [| split].
  - intro E. rewrite E in *. discriminate.
  - match goal with
    | H : cell _ 10 0 = Ok _ |- _ => apply cell_length in H; lia
    end.
  - repeat split; eauto. subst rd. now apply digits_value_nonneg.
Qed.

Lemma accepted_page_layout_witness :
  rating_b (sample_page sample_releases) <> [] /\
  11 <= length (body_trs (sample_page sample_releases)) /\
  (exists c, cell (body_trs (sample_page sample_releases)) 0 0 = Ok c /\
             text c = Some "created by") /\
  (exists c, cell (body_trs (sample_page sample_releases)) 6 0 = Ok c /\
             text c = Some "description") /\
  (exists c, cell (body_trs (sample_page sample_releases)) 9 0 = Ok c /\
             text c = Some "install details") /\
  (exists c a, cell (body_trs (sample_page sample_releases)) 1 0 = Ok c /\
               child c 0 = Ok a /\ Some "Bram" = text a) /\
  (exists d, cell (body_trs (sample_page sample_releases)) 7 0 = Ok d /\
             _clean_text_node d = Ok (td (Some "line oneline two") [])) /\
  (exists i, cell (body_trs (sample_page sample_releases)) 10 0 = Ok i /\
             _clean_text_node i = Ok (td (Some "copy to ~/.vim") [])) /\
  (0 <= 34)%Z.
Proof.
  apply (accepted_page_layout (sample_page sample_releases)). reflexivity.
Defined.

Lemma re_search_head {A : Type} (m : string -> option A) (s : string) (g : A) :
  m s = Some g -> re_search m s = Some g.
Proof. intro H. destruct s; simpl; now rewrite H. Qed.

Lemma match_fraction_decimal (x y : Z) (rest : string) :
  (0 <= x)%Z -> (0 <= y)%Z -> no_digit_ahead rest = true ->
  match_fraction (py_fmt_d x ++ "/" ++ py_fmt_d y ++ rest) =
  Some (py_fmt_d x, py_fmt_d y).
Proof.
  intros Hx Hy Hr. unfold match_fraction.
  rewrite (py_fmt_d_digits x ("/" ++ py_fmt_d y ++ rest) Hx eq_refl).
  cbn [append drop_prefix]. change (Ascii.eqb "/" "/") with true. cbv iota.
  now rewrite (py_fmt_d_digits y rest Hy Hr).
Qed.

(** X13.  When the rating node reads [x/y], with anything but a digit after
    [y], the number of raters an accepted page gives is [y]. *)
Theorem num_raters_is_denominator (html : detail_page)
  (f : Z * option string * element * element) (b : element) (x y : Z)
  (rest : string) :
  page_fields html = Ok f -> item (rating_b html) 0 = Ok b ->
  text b = Some (py_fmt_d x ++ "/" ++ py_fmt_d y ++ rest) ->
  (0 <= x)%Z -> (0 <= y)%Z -> no_digit_ahead rest = true ->
  fst (fst (fst f)) = y.
Proof.
  intros H Hb Ht Hx Hy Hr. destruct f as [[[rd cr] dn] inn].
  apply page_fields_steps in H.
  destruct H as (b' & g & c0 & c1 & a & c6 & d & c9 & i & Hb' & Hs & Hrd & _).
  rewrite Hb in Hb'. injection Hb' as <-. rewrite Ht in Hs.
  unfold py_re_search in Hs.
  rewrite (re_search_head _ _ _ (match_fraction_decimal x y rest Hx Hy Hr))
    in Hs.
  injection Hs as <-. subst rd. cbn [fst snd]. now apply py_fmt_d_value.
Qed.

Lemma num_raters_is_denominator_witness :
  fst (fst (fst (34%Z, Some "Bram", td (Some "line oneline two") [],
                 td (Some "copy to ~/.vim") []))) = 34%Z.
Proof.
  apply (num_raters_is_denominator (sample_page sample_releases) _
           (Element "b" [] (Some "12/34") [] None) 12 34 "");
    try reflexivity; lia.
Defined.

(** * Rows and records *)






Section ScraperRuns.

Variable datetime : Type.
Variable strptime : string -> string -> option datetime.
Variable to_timestamp : datetime -> Z.
Variable _get_innerhtml : element -> string.
Variable fetch_detail : Z -> result detail_page.
Variable fetch_listing : Z -> result (list element).

Local Abbreviation release_dates := (release_dates datetime strptime).
Local Abbreviation get_plugin_info :=
  (get_plugin_info datetime strptime to_timestamp _get_innerhtml
     fetch_detail).
Local Abbreviation process_row :=
  (process_row datetime strptime to_timestamp _get_innerhtml fetch_detail).
Local Abbreviation run_rows :=
  (run_rows datetime strptime to_timestamp _get_innerhtml fetch_detail).
Local Abbreviation get_plugin_list :=
  (get_plugin_list datetime strptime to_timestamp _get_innerhtml
     fetch_detail fetch_listing).

(** X14.  The loop over two lists of rows in a row: when the first part ends
    normally the records and the log entries of the two parts follow each
    other; when an exception ends the first part, the second part is
    never run. *)
Theorem run_rows_append (a b : list element) :
  run_rows (a ++ b) =
  match aborted (run_rows a) with
  | Some _ => run_rows a
  | None =>
      Run (emitted (run_rows a) ++ emitted (run_rows b))%list
          (logged (run_rows a) ++ logged (run_rows b))%list
          (aborted (run_rows b))
  end.
Proof.
  induction a as [| row a IH].
  - simpl. destruct (run_rows b); reflexivity.
  - rewrite <- app_comm_cons. simpl.
    destruct (process_row row) as [r | l | e]; simpl.
    + rewrite IH.
      destruct (aborted (run_rows a)) eqn:E; simpl; rewrite ?E; reflexivity.
    + rewrite IH.
      destruct (aborted (run_rows a)) eqn:E; simpl; rewrite ?E; reflexivity.
    + reflexivity.
Qed.


(** X15.  Every row the loop gets to is either yielded or logged: the two
    lists never hold more than there are rows, and hold exactly as many
    when the iteration ends normally. *)
Theorem every_row_accounted_for (rows : list element) :
  length (emitted (run_rows rows)) + length (logged (run_rows rows))
    <= length rows /\
  (aborted (run_rows rows) = None ->
   length (emitted (run_rows rows)) + length (logged (run_rows rows))
     = length rows).
Proof.
  induction rows as [| row rest [IH1 IH2]]; simpl.
  - split; auto.
  - destruct (process_row row); simpl.
    + split; [lia |]. intro H. specialize (IH2 H). lia.
    + split; [lia |]. intro H. specialize (IH2 H). lia.
    + split; [lia | discriminate].
Qed.


Lemma logged_from_row (rows : list element) (l : log_entry) :
  In l (logged (run_rows rows)) ->
  exists row, In row rows /\ process_row row = Skipped l.
Proof.
  induction rows as [| row rest IH]; simpl; [tauto |].
  destruct (process_row row) as [r0 | l0 | e] eqn:E; simpl.
  - intro H. destruct (IH H) as (t & Hin & Ht). eauto.
  - intros [<- | H]; [eauto |].
    destruct (IH H) as (t & Hin & Ht). eauto.
  - tauto.
Qed.


(** X17.  Where a log entry comes from: a row of the table whose name and
    identifier it carries, for which [get_plugin_info] raised the
    exception it carries. *)
Theorem log_entry_origin (rows : list element) (l : log_entry) :
  In l (logged (run_rows rows)) ->
  exists row link,
    In row rows /\
    row_head row = Ok (link, log_script_id l, log_name l) /\
    get_plugin_info (log_script_id l) = Raise (log_exn l).
Proof.
  intro H. apply logged_from_row in H. destruct H as (row & Hin & H).
  unfold process_row in H.
  destruct (row_head row) as [[[link id] nm] | e] eqn:Eh; [| discriminate].
  destruct (get_plugin_info id) as [extra | e] eqn:Ei.
  - destruct (row_record row id extra); discriminate.
  - injection H as <-. exists row, link. cbn. auto.
Qed.

(** X18.  A table of three rows or fewer holds no script: nothing is yielded,
    nothing is logged, no row is read, and the iteration ends normally. *)
Theorem short_table_gives_nothing (num : Z) (scripts : list element) :
  fetch_listing num = Ok scripts -> length scripts <= 3 ->
  get_plugin_list num = Run [] [] None.
Proof.
  intros Hf Hl. unfold get_plugin_list. rewrite Hf.
  now rewrite (slice_2_m1_short _ Hl).
Qed.


(** *** Release rows *)

Lemma get_plugin_info_ok (script_id : Z) (info : plugin_info) :
  get_plugin_info script_id = Ok info ->
  exists html f ud cd,
    fetch_detail script_id = Ok html /\ page_fields html = Ok f /\
    release_dates (download_trs html) = Ok (ud, cd) /\
    updated_at info = to_timestamp ud /\ created_at info = to_timestamp cd.
Proof.
  unfold get_plugin_info. intro H.
  apply bind_ok in H. destruct H as (html & Hf & H).
  apply bind_ok in H. destruct H as ([[[rd cr] dn] inn] & Hp & H).
  apply bind_ok in H. destruct H as ([ud cd] & Hd & H).
  injection H as <-. exists html, (rd, cr, dn, inn), ud, cd. auto.
Qed.

(** X20.  A script with a single release row has the same [updated_at] and
    [created_at]: the second row of the table is also its last. *)
Theorem single_release_same_dates (script_id : Z) (html : detail_page)
  (info : plugin_info) :
  fetch_detail script_id = Ok html -> length (download_trs html) = 2 ->
  get_plugin_info script_id = Ok info ->
  updated_at info = created_at info.
Proof.
  intros Hf Hlen H. apply get_plugin_info_ok in H.
  destruct H as (html' & f & ud & cd & Hf' & _ & Hd & -> & ->).
  rewrite Hf in Hf'. injection Hf' as <-.
  apply release_dates_inv in Hd.
  destruct Hd as (h & u & u0 & l & c & c0 & ut & ct & _ & _ & Hu & Hu0 & Hut
                  & Hl & Hc & Hc0 & Hct & Hud & Hcd).
  destruct (download_trs html) as [| x [| y [| z dl]]]; try discriminate.
  unfold cell, item in Hu. simpl in Hu.
  unfold item_last in Hl. simpl in Hl. injection Hl as <-.
  rewrite Hu in Hc. injection Hc as <-.
  rewrite Hu0 in Hc0. injection Hc0 as <-.
  rewrite Hut in Hct. injection Hct as <-.
  rewrite Hud in Hcd. now injection Hcd as <-.
Qed.

(** X21.  A release-notes table with its header row and nothing below it ends
    the fetch with [IndexError], once the header has passed the
    assertion. *)
Theorem no_release_row_is_an_index_error (script_id : Z) (html : detail_page)
  (f : Z * option string * element * element) (h c : element) :
  fetch_detail script_id = Ok html -> page_fields html = Ok f ->
  download_trs html = [h] -> child h 2 = Ok c -> text c = Some "date" ->
  get_plugin_info script_id = Raise IndexError.
Proof.
  intros Hf Hp Hd Hc Ht.
  rewrite (get_plugin_info_dates _ _ _ _ _ _ _ _ Hf Hp), Hd.
  unfold release_dates, cell, item. simpl. rewrite Hc. simpl.
  now rewrite (text_eqb_true _ _ Ht).
Qed.

End ScraperRuns.

Lemma short_table_gives_nothing_witness :
  sample_get_plugin_list [header_row; header_row; footer_row] 5 =
  Run [] [] None.
Proof.
  apply (short_table_gives_nothing (Z * Z * Z) sample_strptime
           sample_to_timestamp sample_innerhtml site_detail
           (site_listing [header_row; header_row; footer_row]) 5%Z
           [header_row; header_row; footer_row]).
  - reflexivity.
  - simpl. lia.
Defined.


Lemma log_entry_origin_witness :
  exists row link,
    In row [row1; row2; row3] /\
    row_head row = Ok (link, 2%Z, Some "two") /\
    sample_get_plugin_info 2 = Raise RequestException.
Proof.
  apply (log_entry_origin (Z * Z * Z) sample_strptime
           sample_to_timestamp sample_innerhtml site_detail
           [row1; row2; row3] (LogEntry (Some "two") 2 RequestException)).
  left. reflexivity.
Defined.

Lemma single_release_same_dates_witness :
  updated_at (PluginInfo 34 (Some "Bram") "line oneline two"
                "copy to ~/.vim" 748961 748961) =
  created_at (PluginInfo 34 (Some "Bram") "line oneline two"
                "copy to ~/.vim" 748961 748961).
Proof.
  apply (single_release_same_dates (Z * Z * Z) sample_strptime
           sample_to_timestamp sample_innerhtml
           (fun _ => Ok (sample_page [release_row (Some "2013-04-01")]))
           9%Z (sample_page [release_row (Some "2013-04-01")])).
  - reflexivity.
  - reflexivity.
  - reflexivity.
Defined.

Lemma no_release_row_is_an_index_error_witness :
  get_plugin_info (Z * Z * Z) sample_strptime sample_to_timestamp
    sample_innerhtml (fun _ => Ok (sample_page [])) 9
  = Raise IndexError.
Proof.
  apply (no_release_row_is_an_index_error (Z * Z * Z) sample_strptime
           sample_to_timestamp sample_innerhtml
           (fun _ => Ok (sample_page [])) 9%Z (sample_page [])
           (34%Z, Some "Bram", td (Some "line oneline two") [],
            td (Some "copy to ~/.vim") [])
           release_header (Element "th" [] (Some "date") [] None));
    reflexivity.
Defined.

